(** * The blind-signature issuer of [backend/app/app.py]

    A shallow embedding of the five Flask handlers of [app.py]
    ([generate_keypair], [create_sign_session], [close_sign_session],
    [blind_sign], [delete_key]) as computations in a state monad over the
    two stores, the randomness of the crypto engine, the trace of engine
    calls and the standard output, followed by the properties of the
    key/session life cycle. *)

From stdpp Require Import gmap strings list.

Local Open Scope Z_scope.

(** ** Values crossing the HTTP boundary *)

(** A field read with [data.get('...')]: a JSON string, or Python's [None]
    when the request body has no such field. *)
Abbreviation value := (option string).

(** The parsed request body [request.json]: an object with string fields. *)
Abbreviation request_json := (gmap string string).

(** [data.get(k)]. *)
Definition get (data : request_json) (k : string) : value := data !! k.

(** The JSON values the handlers pass to [jsonify]. *)
Inductive json : Type :=
  | JString (s : string)
  | JBool (b : bool).

(** A Flask response: the object built by [jsonify(k=v, ...)] and the status
    code; a handler returning [jsonify(...)] alone answers 200. *)
Record Response : Type := mkResponse {
  body : list (string * json);
  status : Z
}.

Definition jsonify (fields : list (string * json)) : list (string * json) := fields.

Definition ok (payload : list (string * json)) : Response :=
  {| body := payload; status := 200 |}.

Definition with_status (payload : list (string * json)) (code : Z) : Response :=
  {| body := payload; status := code |}.

(** ** The two kinds of stored entries *)

(** Modelled from the spec: [models.PermanentStorage] is not part of the
    sources; the spec's PermanentEntry has a [constraint_hash], a secret
    [private_key] and a [public_key], the attributes [app.py] reads. *)
Record PermanentStorage : Type := mkPermanent {
  permanent_hash : value;
  private_key : string;
  public_key : string
}.

(** Modelled from the spec: [models.TemporaryStorage] is not part of the
    sources; the spec's TemporaryEntry has a [constraint_hash], a secret
    [private_value] and a [public_value]. *)
Record TemporaryStorage : Type := mkTemporary {
  temporary_hash : value;
  private_value : string;
  public_value : string
}.

(** ** Calls into the crypto engine, as they are observed *)
Inductive EngineCall : Type :=
  | CallGenerateKeypair
  | CallGenerateSession
  | CallSign (sk pv : string) (blinded_message : value)
  | CallVerify (proof blinded_message constraint_hash : value).

Definition is_keypair_call (c : EngineCall) : bool :=
  match c with CallGenerateKeypair => true | _ => false end.

Definition is_session_call (c : EngineCall) : bool :=
  match c with CallGenerateSession => true | _ => false end.

Definition is_sign_call (c : EngineCall) : bool :=
  match c with CallSign _ _ _ => true | _ => false end.

Definition count_calls (p : EngineCall -> bool) (l : list EngineCall) : nat :=
  length (filter (fun c => p c = true) l).

(** The operations of the HTTP surface. *)
Inductive Route : Type :=
  | GenerateKeypair
  | CreateSignSession
  | CloseSignSession
  | BlindSign
  | DeleteKey.

(** The only field names [app.py] ever hands to [jsonify]. *)
Definition response_fields : list string :=
  ["public_key"; "public_value"; "success"; "error"; "blinded_signature"]%string.

(** A response with the value of its [blinded_signature] field blanked. *)
Definition redact_field (kv : string * json) : string * json :=
  if decide (kv.1 = "blinded_signature"%string) then (kv.1, JString EmptyString) else kv.

Definition redact (r : Response) : Response :=
  {| body := redact_field <$> body r; status := status r |}.

(** ** The crypto engine [libblindr]

    The engine is an external collaborator: the handlers only call it.
    Its two generators draw from a source of randomness [Rng] and return a
    (secret, public) pair; signing and proof checking are functions of their
    arguments. Exceptions raised inside the engine are outside this model. *)
Class Libblindr : Type := {
  Rng : Type;
  gen_keypair : Rng -> (string * string) * Rng;
  gen_session : Rng -> (string * string) * Rng;
  sign : string -> string -> value -> string;
  verify : value -> value -> value -> bool
}.

Section App.

Context `{E : Libblindr}.

(** ** The state the handlers run in *)
Record World : Type := mkWorld {
  permanent : gmap value PermanentStorage;   (* the Key Store *)
  temporary : gmap value TemporaryStorage;   (* the Session Store *)
  entropy : Rng;                             (* randomness left in the engine *)
  calls : list EngineCall;                   (* engine calls made so far *)
  stdout : list string                       (* lines printed so far *)
}.

Definition set_permanent (f : gmap value PermanentStorage -> gmap value PermanentStorage)
    (w : World) : World :=
  {| permanent := f (permanent w); temporary := temporary w;
     entropy := entropy w; calls := calls w; stdout := stdout w |}.

Definition set_temporary (f : gmap value TemporaryStorage -> gmap value TemporaryStorage)
    (w : World) : World :=
  {| permanent := permanent w; temporary := f (temporary w);
     entropy := entropy w; calls := calls w; stdout := stdout w |}.

Definition set_entropy (r : Rng) (w : World) : World :=
  {| permanent := permanent w; temporary := temporary w;
     entropy := r; calls := calls w; stdout := stdout w |}.

Definition log_call (c : EngineCall) (w : World) : World :=
  {| permanent := permanent w; temporary := temporary w;
     entropy := entropy w; calls := calls w ++ [c]; stdout := stdout w |}.

Definition log_line (s : string) (w : World) : World :=
  {| permanent := permanent w; temporary := temporary w;
     entropy := entropy w; calls := calls w; stdout := stdout w ++ [s] |}.

(** ** A state monad for the handlers *)
Definition M (A : Type) : Type := World -> A * World.

#[local] Instance M_ret : MRet M := fun A (a : A) w => (a, w).
#[local] Instance M_bind : MBind M :=
  fun A B (k : A -> M B) (c : M A) w => let (a, w') := c w in k a w'.

Definition modify (f : World -> World) : M unit := fun w => (tt, f w).

(** ** [db_methods] *)

(** Modelled from the spec: [db_methods.find_permanent] is not part of the
    sources; the Key Store's [find] is a read-only lookup returning the
    entry or nothing. *)
Definition find_permanent (constraint_hash : value) : M (option PermanentStorage) :=
  fun w => (permanent w !! constraint_hash, w).

(** Modelled from the spec: [db_methods.find_temporary]; the Session
    Store's [find], a read-only lookup. *)
Definition find_temporary (constraint_hash : value) : M (option TemporaryStorage) :=
  fun w => (temporary w !! constraint_hash, w).

(** Modelled from the spec: [db_methods.store_permanent]; the persistence
    interface's [store(constraint_hash, secret, public)] on the mapping
    [constraint_hash -> (private_key, public_key)]. *)
Definition store_permanent (constraint_hash : value) (sk pk : string) : M unit :=
  modify (set_permanent (insert constraint_hash (mkPermanent constraint_hash sk pk))).

(** Modelled from the spec: [db_methods.store_temporary]. *)
Definition store_temporary (constraint_hash : value) (pv pubv : string) : M unit :=
  modify (set_temporary (insert constraint_hash (mkTemporary constraint_hash pv pubv))).

(** Modelled from the spec: [db_methods.delete_permanent]; the Key Store's
    [delete] removes the entry if present and tells whether something was
    removed. *)
Definition delete_permanent (constraint_hash : value) : M bool :=
  fun w => (bool_decide (is_Some (permanent w !! constraint_hash)),
            set_permanent (delete constraint_hash) w).

(** Modelled from the spec: [db_methods.delete_temporary]; the Session
    Store's [delete], where deleting a missing session is a success. *)
Definition delete_temporary (constraint_hash : value) : M bool :=
  fun w => (bool_decide (is_Some (temporary w !! constraint_hash)),
            set_temporary (delete constraint_hash) w).

(** ** [libblindr], with every call recorded *)

Definition server_generate_keypair : M (string * string) :=
  fun w => let (kp, r) := gen_keypair (entropy w) in
           (kp, log_call CallGenerateKeypair (set_entropy r w)).

Definition server_generate_session : M (string * string) :=
  fun w => let (sv, r) := gen_session (entropy w) in
           (sv, log_call CallGenerateSession (set_entropy r w)).

Definition server_sign (sk pv : string) (blinded_message : value) : M string :=
  fun w => (sign sk pv blinded_message, log_call (CallSign sk pv blinded_message) w).

Definition verify_message_fits_constraint (proof blinded_message constraint_hash : value)
    : M bool :=
  fun w => (verify proof blinded_message constraint_hash,
            log_call (CallVerify proof blinded_message constraint_hash) w).

Definition print (s : string) : M unit := modify (log_line s).

(** ** The handlers of [app.py]

    The stored entries are model instances, which Python treats as true,
    so [if permanent_entry:] and [if temp_entry:] take the branch exactly
    when the lookup found an entry. *)

Definition generate_keypair (data : request_json) : M Response :=
  let constraint_hash := get data "constraint_hash" in
  permanent_entry ← find_permanent constraint_hash;
  match permanent_entry with
  | Some permanent_entry =>
      mret (ok (jsonify [("public_key", JString (public_key permanent_entry))]))
  | None =>
      '(private_key, public_key) ← server_generate_keypair;
      _ ← store_permanent constraint_hash private_key public_key;
      mret (ok (jsonify [("public_key", JString public_key)]))
  end.

Definition create_sign_session (data : request_json) : M Response :=
  let constraint_hash := get data "constraint_hash" in
  found ← find_permanent constraint_hash;
  match found with
  | None =>
      mret (with_status (jsonify [("error", JString "Constraint hash not found")]) 404)
  | Some _ =>
      temp_entry ← find_temporary constraint_hash;
      match temp_entry with
      | Some temp_entry =>
          _ ← print "found session alr exists";
          mret (ok (jsonify [("public_value", JString (public_value temp_entry))]))
      | None =>
          '(private_value, public_value) ← server_generate_session;
          _ ← store_temporary constraint_hash private_value public_value;
          mret (ok (jsonify [("public_value", JString public_value)]))
      end
  end.

Definition close_sign_session (data : request_json) : M Response :=
  let constraint_hash := get data "constraint_hash" in
  _ ← delete_temporary constraint_hash;
  mret (ok (jsonify [("success", JBool true)])).

Definition blind_sign (data : request_json) : M Response :=
  let blinded_message := get data "blinded_message" in
  let constraint_hash := get data "constraint_hash" in
  let proof := get data "proof" in
  temporary_entry ← find_temporary constraint_hash;
  match temporary_entry with
  | None => mret (with_status (jsonify [("error", JString "Session not found")]) 404)
  | Some temporary_entry =>
      permanent_entry ← find_permanent constraint_hash;
      match permanent_entry with
      | None =>
          mret (with_status (jsonify [("error", JString "Constraint hash not found")]) 404)
      | Some permanent_entry =>
          is_valid ← verify_message_fits_constraint proof blinded_message constraint_hash;
          if negb is_valid then
            mret (with_status (jsonify [("error", JString "Verification failed")]) 400)
          else
            let private_key := private_key permanent_entry in
            let private_value := private_value temporary_entry in
            blinded_signature ← server_sign private_key private_value blinded_message;
            mret (ok (jsonify [("blinded_signature", JString blinded_signature)]))
      end
  end.

Definition delete_key (data : request_json) : M Response :=
  let constraint_hash := get data "constraint_hash" in
  found ← find_permanent constraint_hash;
  match found with
  | None =>
      mret (with_status (jsonify [("error", JString "Constraint hash not found")]) 404)
  | Some _ =>
      _ ← delete_permanent constraint_hash;
      mret (ok (jsonify [("success", JBool true)]))
  end.

(** ** The application: routing one request, and running a sequence *)

Definition dispatch (r : Route) (data : request_json) : M Response :=
  match r with
  | GenerateKeypair => generate_keypair data
  | CreateSignSession => create_sign_session data
  | CloseSignSession => close_sign_session data
  | BlindSign => blind_sign data
  | DeleteKey => delete_key data
  end.

Fixpoint serve (reqs : list (Route * request_json)) : M (list Response) :=
  match reqs with
  | [] => mret []
  | (r, data) :: rest =>
      resp ← dispatch r data;
      resps ← serve rest;
      mret (resp :: resps)
  end.

End App.

(** ** What a client can learn about a state

    The public half of every entry, and the randomness still to be drawn;
    the secrets [private_key] and [private_value] are left out. *)
Definition public_permanent (e : PermanentStorage) : value * string :=
  (permanent_hash e, public_key e).

Definition public_temporary (e : TemporaryStorage) : value * string :=
  (temporary_hash e, public_value e).

Definition low_equiv `{E : Libblindr} (w1 w2 : World) : Prop :=
  public_permanent <$> permanent w1 = public_permanent <$> permanent w2 /\
  public_temporary <$> temporary w1 = public_temporary <$> temporary w2 /\
  entropy w1 = entropy w2.

(** ** A concrete engine and concrete states, to run the handlers on *)

Definition demo_pair (tag : string) (n : nat) : string * string :=
  (String (Ascii.ascii_of_nat (97 + n)) ("-secret-" +:+ tag),
   String (Ascii.ascii_of_nat (97 + n)) ("-public-" +:+ tag)).

Definition demo_engine : Libblindr := {|
  Rng := nat;
  gen_keypair n := (demo_pair "key" n, S n);
  gen_session n := (demo_pair "session" n, S n);
  sign sk pv m := sk +:+ "|" +:+ pv +:+ "|" +:+ from_option id EmptyString m;
  verify proof m h := bool_decide (proof = Some "valid")
|}.

Definition demo_request (proof : string) : request_json :=
  <["constraint_hash" := "abc"]>
    (<["blinded_message" := "blinded"]> (<["proof" := proof]> ∅)).

Definition other_request : request_json := <["constraint_hash" := "xyz"]> ∅.

Definition demo_empty : @World demo_engine :=
  @mkWorld demo_engine ∅ ∅ 0%nat [] [].

(** Only a key for ["abc"]. *)
Definition demo_key_only : @World demo_engine :=
  (serve [(GenerateKeypair, demo_request "valid")] demo_empty).2.

(** A key and a session for ["abc"]. *)
Definition demo_key_session : @World demo_engine :=
  (serve [(GenerateKeypair, demo_request "valid");
          (CreateSignSession, demo_request "valid")] demo_empty).2.

(** A session for ["abc"] whose key has been deleted. *)
Definition demo_session_only : @World demo_engine :=
  (serve [(DeleteKey, demo_request "valid")] demo_key_session).2.

(** The same public entries as [demo_key_session], other secrets. *)
Definition demo_key_session' : @World demo_engine :=
  @mkWorld demo_engine
    {[ Some "abc" := mkPermanent (Some "abc") "another-key" "a-public-key" ]}
    {[ Some "abc" := mkTemporary (Some "abc") "another-nonce" "b-public-session" ]}
    2%nat [] [].

(** ** Predicates on traces and states, for the life-cycle properties *)

(** A call of [sign] is in order when the call just before it is a
    verification of the same message that the engine accepted. *)
Definition sign_follows_verify `{E : Libblindr}
    (prev : option EngineCall) (c : EngineCall) : bool :=
  match c with
  | CallSign _ _ m =>
      match prev with
      | Some (CallVerify proof m' h) => bool_decide (m' = m) && verify proof m' h
      | _ => false
      end
  | _ => true
  end.

Fixpoint signs_verified_from `{E : Libblindr}
    (prev : option EngineCall) (l : list EngineCall) : bool :=
  match l with
  | [] => true
  | c :: rest => sign_follows_verify prev c && signs_verified_from (Some c) rest
  end.

(** Every [sign] of the trace directly follows its accepted verification. *)
Definition signs_verified `{E : Libblindr} (l : list EngineCall) : bool :=
  signs_verified_from None l.

(** The last call of [l], or [prev] when [l] is empty. *)
Definition last_call (prev : option EngineCall) (l : list EngineCall) : option EngineCall :=
  match last l with
  | Some c => Some c
  | None => prev
  end.

(** A stored key is filed under its own hash and is a pair the engine's
    keypair generator produced; likewise for a stored session. *)
Definition permanent_ok `{E : Libblindr} (h : value) (e : PermanentStorage) : Prop :=
  permanent_hash e = h /\
  exists r, (gen_keypair r).1 = (private_key e, public_key e).

Definition temporary_ok `{E : Libblindr} (h : value) (e : TemporaryStorage) : Prop :=
  temporary_hash e = h /\
  exists r, (gen_session r).1 = (private_value e, public_value e).

Definition stores_ok `{E : Libblindr} (w : World) : Prop :=
  map_Forall permanent_ok (permanent w) /\ map_Forall temporary_ok (temporary w).

(** Two states that hold the same entries for the hash [h] and have the
    same randomness left. *)
Definition same_at `{E : Libblindr} (h : value) (w1 w2 : World) : Prop :=
  permanent w1 !! h = permanent w2 !! h /\
  temporary w1 !! h = temporary w2 !! h /\
  entropy w1 = entropy w2.

(** The three error messages of [app.py]. *)
Definition error_messages : list string :=
  ["Session not found"; "Constraint hash not found"; "Verification failed"]%string.

(** ** The same engine with other secrets *)

(** An engine that agrees with [E] on everything public (the randomness,
    the public half of every generated pair, the verdict of [verify]) and
    has secret halves and a signing function of its own. *)
Definition with_secrets `{E : Libblindr} (key_secret session_secret : Rng -> string)
    (signer : string -> string -> value -> string) : Libblindr :=
  {| Rng := Rng;
     gen_keypair r := ((key_secret r, (gen_keypair r).1.2), (gen_keypair r).2);
     gen_session r := ((session_secret r, (gen_session r).1.2), (gen_session r).2);
     sign := signer;
     verify := verify |}.

(** A state of [E] and a state of such an engine that hold the same public
    entries and have the same randomness left: they may differ in every
    stored secret, and the engines in every secret still to be drawn. *)
Definition public_equiv `{E : Libblindr}
    {key_secret session_secret : Rng -> string}
    {signer : string -> string -> value -> string}
    (w1 : @World E) (w2 : @World (with_secrets key_secret session_secret signer)) : Prop :=
  public_permanent <$> permanent w1 = public_permanent <$> permanent w2 /\
  public_temporary <$> temporary w1 = public_temporary <$> temporary w2 /\
  entropy w1 = entropy w2.

(** The demo engine with other secrets, and its empty state. *)
Definition demo_engine' : Libblindr :=
  @with_secrets demo_engine (fun _ => "hidden-key") (fun _ => "hidden-nonce")
    (fun _ _ _ => "hidden-signature").

Definition demo_empty' : @World demo_engine' :=
  @mkWorld demo_engine' ∅ ∅ 0%nat [] [].

(** * Properties of the handlers *)

(** Unfolds a handler down to the stores and the engine. *)
Ltac run_handler :=
  unfold dispatch, generate_keypair, create_sign_session, close_sign_session,
    blind_sign, delete_key, find_permanent, find_temporary, store_permanent,
    store_temporary, delete_permanent, delete_temporary, server_generate_keypair,
    server_generate_session, server_sign, verify_message_fits_constraint, print,
    modify, mbind, M_bind, mret, M_ret, jsonify; simpl.

Section Properties.

Context `{E : Libblindr}.

Implicit Types (w : World) (data : request_json) (h : value).

(** ** Signing *)

Lemma blind_sign_no_session data w :
  temporary w !! get data "constraint_hash" = None ->
  blind_sign data w = (with_status [("error", JString "Session not found")] 404, w).
Proof. intros Ht. run_handler. now rewrite Ht. Qed.

Lemma blind_sign_no_key data w te :
  temporary w !! get data "constraint_hash" = Some te ->
  permanent w !! get data "constraint_hash" = None ->
  blind_sign data w = (with_status [("error", JString "Constraint hash not found")] 404, w).
Proof. intros Ht Hp. run_handler. now rewrite Ht, Hp. Qed.

Lemma blind_sign_invalid data w pe te :
  permanent w !! get data "constraint_hash" = Some pe ->
  temporary w !! get data "constraint_hash" = Some te ->
  verify (get data "proof") (get data "blinded_message") (get data "constraint_hash") = false ->
  blind_sign data w =
    (with_status [("error", JString "Verification failed")] 400,
     log_call (CallVerify (get data "proof") (get data "blinded_message")
                 (get data "constraint_hash")) w).
Proof. intros Hp Ht Hv. run_handler. now rewrite Ht, Hp, Hv. Qed.

Lemma blind_sign_valid data w pe te :
  permanent w !! get data "constraint_hash" = Some pe ->
  temporary w !! get data "constraint_hash" = Some te ->
  verify (get data "proof") (get data "blinded_message") (get data "constraint_hash") = true ->
  blind_sign data w =
    (ok [("blinded_signature",
          JString (sign (private_key pe) (private_value te) (get data "blinded_message")))],
     log_call (CallSign (private_key pe) (private_value te) (get data "blinded_message"))
       (log_call (CallVerify (get data "proof") (get data "blinded_message")
                    (get data "constraint_hash")) w)).
Proof. intros Hp Ht Hv. run_handler. now rewrite Ht, Hp, Hv. Qed.

Lemma count_calls_snoc p l c :
  count_calls p (l ++ [c]) = (count_calls p l + (if p c then 1 else 0))%nat.
Proof.
  unfold count_calls. rewrite filter_app, length_app. f_equal.
  destruct (p c) eqn:Hc.
  - rewrite filter_cons_True by done. reflexivity.
  - rewrite filter_cons_False by (rewrite Hc; discriminate). reflexivity.
Qed.

(** C1: with a key and a session stored for the hash and a proof that
    verifies, blind-sign answers 200 with [blinded_signature] equal to
    [sign] applied to the stored [private_key], the stored [private_value]
    and the request's [blinded_message]. *)
Theorem blind_sign_success data w pe te :
  permanent w !! get data "constraint_hash" = Some pe ->
  temporary w !! get data "constraint_hash" = Some te ->
  verify (get data "proof") (get data "blinded_message") (get data "constraint_hash") = true ->
  (blind_sign data w).1 =
    {| body := [("blinded_signature",
                 JString (sign (private_key pe) (private_value te)
                            (get data "blinded_message")))];
       status := 200 |}.
Proof. intros Hp Ht Hv. now rewrite (blind_sign_valid _ _ _ _ Hp Ht Hv). Qed.

(** C2: blind-sign checks the session first, then the key, then the
    proof. Without a session it answers 404 "Session not found" whatever
    the key store holds and whatever the proof is, and no engine call is
    made; with a session but no key it answers 404 "Constraint hash not
    found", again before any engine call; only with both is the proof
    checked, and a failing proof gives 400 "Verification failed". *)
Theorem blind_sign_error_precedence data w :
  (temporary w !! get data "constraint_hash" = None ->
     blind_sign data w =
       ({| body := [("error", JString "Session not found")]; status := 404 |}, w)) /\
  (is_Some (temporary w !! get data "constraint_hash") ->
   permanent w !! get data "constraint_hash" = None ->
     blind_sign data w =
       ({| body := [("error", JString "Constraint hash not found")]; status := 404 |}, w)) /\
  (is_Some (temporary w !! get data "constraint_hash") ->
   is_Some (permanent w !! get data "constraint_hash") ->
   verify (get data "proof") (get data "blinded_message") (get data "constraint_hash") = false ->
     (blind_sign data w).1 =
       {| body := [("error", JString "Verification failed")]; status := 400 |} /\
     calls (blind_sign data w).2 =
       calls w ++ [CallVerify (get data "proof") (get data "blinded_message")
                     (get data "constraint_hash")]).
Proof.
  split; [|split].
  - apply blind_sign_no_session.
  - intros [te Ht] Hp. eapply blind_sign_no_key; eauto.
  - intros [te Ht] [pe Hp] Hv. rewrite (blind_sign_invalid _ _ _ _ Hp Ht Hv). auto.
Qed.

(** C7: with a key and a session stored but a proof that does not verify,
    blind-sign answers 400 "Verification failed"; the only engine call it
    makes is the verification, so [sign] is not invoked, and both stores
    are left as they were. *)
Theorem blind_sign_verification_failed data w pe te :
  permanent w !! get data "constraint_hash" = Some pe ->
  temporary w !! get data "constraint_hash" = Some te ->
  verify (get data "proof") (get data "blinded_message") (get data "constraint_hash") = false ->
  (blind_sign data w).1 =
    {| body := [("error", JString "Verification failed")]; status := 400 |} /\
  calls (blind_sign data w).2 =
    calls w ++ [CallVerify (get data "proof") (get data "blinded_message")
                  (get data "constraint_hash")] /\
  count_calls is_sign_call (calls (blind_sign data w).2) = count_calls is_sign_call (calls w) /\
  permanent (blind_sign data w).2 = permanent w /\
  temporary (blind_sign data w).2 = temporary w.
Proof.
  intros Hp Ht Hv. rewrite (blind_sign_invalid _ _ _ _ Hp Ht Hv). simpl.
  repeat split. rewrite count_calls_snoc. simpl. lia.
Qed.

(** ** Deleting keys and closing sessions *)

Lemma delete_key_absent data w :
  permanent w !! get data "constraint_hash" = None ->
  delete_key data w = (with_status [("error", JString "Constraint hash not found")] 404, w).
Proof. intros Hp. run_handler. now rewrite Hp. Qed.

Lemma delete_key_present data w pe :
  permanent w !! get data "constraint_hash" = Some pe ->
  delete_key data w =
    (ok [("success", JBool true)], set_permanent (delete (get data "constraint_hash")) w).
Proof. intros Hp. run_handler. now rewrite Hp. Qed.

Lemma close_sign_session_eq data w :
  close_sign_session data w =
    (ok [("success", JBool true)], set_temporary (delete (get data "constraint_hash")) w).
Proof. reflexivity. Qed.

(** C9: delete-key on a hash without a stored key answers 404 "Constraint
    hash not found" and leaves the state as it was; on a hash with a stored
    key it answers 200 [success: true], that key is gone afterwards, and
    every other key and every session is left as it was. *)
Theorem delete_key_outcomes data w :
  (permanent w !! get data "constraint_hash" = None ->
     delete_key data w =
       ({| body := [("error", JString "Constraint hash not found")]; status := 404 |}, w)) /\
  (is_Some (permanent w !! get data "constraint_hash") ->
     (delete_key data w).1 = {| body := [("success", JBool true)]; status := 200 |} /\
     permanent (delete_key data w).2 !! get data "constraint_hash" = None /\
     (forall h, h <> get data "constraint_hash" ->
        permanent (delete_key data w).2 !! h = permanent w !! h) /\
     temporary (delete_key data w).2 = temporary w /\
     calls (delete_key data w).2 = calls w).
Proof.
  split.
  - apply delete_key_absent.
  - intros [pe Hp]. rewrite (delete_key_present _ _ _ Hp). simpl.
    repeat split.
    + apply lookup_delete_eq.
    + intros h Hne. now apply lookup_delete_ne.
Qed.

(** C10: close-sign-session answers 200 [success: true] in every state and
    for every request; afterwards no session is stored for the hash, the
    sessions of other hashes and all keys are as before, and closing again
    (a session that is already closed, or one that never existed) is again
    a success that changes nothing. *)
Theorem close_sign_session_always_succeeds data w :
  (close_sign_session data w).1 = {| body := [("success", JBool true)]; status := 200 |} /\
  temporary (close_sign_session data w).2 !! get data "constraint_hash" = None /\
  (forall h, h <> get data "constraint_hash" ->
     temporary (close_sign_session data w).2 !! h = temporary w !! h) /\
  permanent (close_sign_session data w).2 = permanent w /\
  (temporary w !! get data "constraint_hash" = None ->
     close_sign_session data w = ({| body := [("success", JBool true)]; status := 200 |}, w)) /\
  close_sign_session data (close_sign_session data w).2 =
    ({| body := [("success", JBool true)]; status := 200 |}, (close_sign_session data w).2).
Proof.
  rewrite !close_sign_session_eq. simpl. repeat split.
  - apply lookup_delete_eq.
  - intros h Hne. now apply lookup_delete_ne.
  - intros Hn. unfold ok, set_temporary. rewrite delete_id by done. now destruct w.
  - unfold ok, set_temporary. simpl. now rewrite delete_delete_eq.
Qed.

(** ** Creating keys and sessions *)

Lemma generate_keypair_existing data w pe :
  permanent w !! get data "constraint_hash" = Some pe ->
  generate_keypair data w = (ok [("public_key", JString (public_key pe))], w).
Proof. intros Hp. run_handler. now rewrite Hp. Qed.

Lemma generate_keypair_fresh data w :
  permanent w !! get data "constraint_hash" = None ->
  generate_keypair data w =
    (ok [("public_key", JString (gen_keypair (entropy w)).1.2)],
     set_permanent
       (insert (get data "constraint_hash")
          (mkPermanent (get data "constraint_hash")
             (gen_keypair (entropy w)).1.1 (gen_keypair (entropy w)).1.2))
       (log_call CallGenerateKeypair (set_entropy (gen_keypair (entropy w)).2 w))).
Proof.
  intros Hp. run_handler. rewrite Hp.
  now destruct (gen_keypair (entropy w)) as [[sk pk] r].
Qed.

Lemma create_sign_session_absent data w :
  permanent w !! get data "constraint_hash" = None ->
  create_sign_session data w =
    (with_status [("error", JString "Constraint hash not found")] 404, w).
Proof. intros Hp. run_handler. now rewrite Hp. Qed.

Lemma create_sign_session_existing data w pe te :
  permanent w !! get data "constraint_hash" = Some pe ->
  temporary w !! get data "constraint_hash" = Some te ->
  create_sign_session data w =
    (ok [("public_value", JString (public_value te))],
     log_line "found session alr exists" w).
Proof. intros Hp Ht. run_handler. now rewrite Hp, Ht. Qed.

Lemma create_sign_session_fresh data w pe :
  permanent w !! get data "constraint_hash" = Some pe ->
  temporary w !! get data "constraint_hash" = None ->
  create_sign_session data w =
    (ok [("public_value", JString (gen_session (entropy w)).1.2)],
     set_temporary
       (insert (get data "constraint_hash")
          (mkTemporary (get data "constraint_hash")
             (gen_session (entropy w)).1.1 (gen_session (entropy w)).1.2))
       (log_call CallGenerateSession (set_entropy (gen_session (entropy w)).2 w))).
Proof.
  intros Hp Ht. run_handler. rewrite Hp, Ht.
  now destruct (gen_session (entropy w)) as [[pv pubv] r].
Qed.

(** C4: generate-keypair is idempotent. When a key is already stored for
    the hash, the answer is that entry's [public_key] and the state is left
    exactly as it was: no engine call, no write. In any state a second call
    with the same request gives the same answer as the first and changes
    nothing, no stored key is ever replaced, and over both calls the
    keypair generator runs at most once. *)
Theorem generate_keypair_idempotent data w :
  let first := generate_keypair data w in
  let second := generate_keypair data first.2 in
  (forall pe, permanent w !! get data "constraint_hash" = Some pe ->
     first = ({| body := [("public_key", JString (public_key pe))]; status := 200 |}, w)) /\
  second.1 = first.1 /\
  second.2 = first.2 /\
  (forall h pe, permanent w !! h = Some pe -> permanent first.2 !! h = Some pe) /\
  (count_calls is_keypair_call (calls second.2)
     <= count_calls is_keypair_call (calls w) + 1)%nat.
Proof.
  intros first second. subst second first.
  destruct (permanent w !! get data "constraint_hash") as [pe|] eqn:Hp.
  - rewrite (generate_keypair_existing _ _ _ Hp). simpl.
    rewrite (generate_keypair_existing _ _ _ Hp). simpl.
    repeat split; auto with lia.
    intros pe' [= <-]. reflexivity.
  - rewrite (generate_keypair_fresh _ _ Hp). simpl.
    erewrite generate_keypair_existing by (simpl; apply lookup_insert_eq). simpl.
    repeat split; try discriminate.
    + intros h pe Hh. rewrite lookup_insert_ne; [done | congruence].
    + rewrite count_calls_snoc. simpl. lia.
Qed.

(** C5: create-sign-session is idempotent for a hash whose key is stored.
    When a session is already stored, the answer is that session's
    [public_value], and neither the stores nor the engine are touched. In
    any such state a second call gives the same answer as the first and
    leaves the stores and the engine as the first call left them, no stored
    session is ever replaced, and over both calls the session generator
    runs at most once. *)
Theorem create_sign_session_idempotent data w pe :
  permanent w !! get data "constraint_hash" = Some pe ->
  let first := create_sign_session data w in
  let second := create_sign_session data first.2 in
  (forall te, temporary w !! get data "constraint_hash" = Some te ->
     first.1 = {| body := [("public_value", JString (public_value te))]; status := 200 |} /\
     temporary first.2 = temporary w /\ permanent first.2 = permanent w /\
     calls first.2 = calls w /\ entropy first.2 = entropy w) /\
  second.1 = first.1 /\
  (temporary second.2 = temporary first.2 /\ permanent second.2 = permanent first.2 /\
   calls second.2 = calls first.2 /\ entropy second.2 = entropy first.2) /\
  (forall h te, temporary w !! h = Some te -> temporary first.2 !! h = Some te) /\
  (count_calls is_session_call (calls second.2)
     <= count_calls is_session_call (calls w) + 1)%nat.
Proof.
  intros Hp first second. subst second first.
  destruct (temporary w !! get data "constraint_hash") as [te|] eqn:Ht.
  - rewrite (create_sign_session_existing _ _ _ _ Hp Ht). simpl.
    erewrite create_sign_session_existing by (simpl; eauto). simpl.
    split; [intros te' [= <-]; auto |].
    repeat split; auto with lia.
  - rewrite (create_sign_session_fresh _ _ _ Hp Ht). simpl.
    erewrite create_sign_session_existing
      by (simpl; first [ exact Hp | apply lookup_insert_eq ]). simpl.
    repeat split; try discriminate.
    + intros h te Hh. rewrite lookup_insert_ne; [done | congruence].
    + rewrite count_calls_snoc. simpl. lia.
Qed.

(** ** What each request leaves alone *)

(** No handler but generate-keypair on that very hash makes a key appear. *)
Lemma permanent_absent_preserved r data w h :
  permanent w !! h = None ->
  (r = GenerateKeypair -> get data "constraint_hash" <> h) ->
  permanent (dispatch r data w).2 !! h = None.
Proof.
  intros Hn Hr. destruct r; run_handler; repeat case_match; simplify_eq/=; auto.
  - rewrite lookup_insert_ne; auto.
  - rewrite lookup_delete; case_decide; auto.
Qed.

(** No handler but close-sign-session on that very hash touches a session. *)
Lemma temporary_present_preserved r data w h te :
  temporary w !! h = Some te ->
  (r = CloseSignSession -> get data "constraint_hash" <> h) ->
  temporary (dispatch r data w).2 !! h = Some te.
Proof.
  intros Hs Hr. destruct r; run_handler; repeat case_match; simplify_eq/=; auto.
  - rewrite lookup_insert_ne; auto. congruence.
  - rewrite lookup_delete_ne; auto.
Qed.

Lemma blind_sign_stores data w :
  permanent (blind_sign data w).2 = permanent w /\
  temporary (blind_sign data w).2 = temporary w /\
  entropy (blind_sign data w).2 = entropy w.
Proof. run_handler; repeat case_match; simplify_eq/=; auto. Qed.

Lemma blind_sign_again data w :
  (blind_sign data (blind_sign data w).2).1 = (blind_sign data w).1.
Proof.
  destruct (temporary w !! get data "constraint_hash") as [te|] eqn:Ht.
  2: { rewrite (blind_sign_no_session _ _ Ht). simpl.
       now rewrite (blind_sign_no_session _ _ Ht). }
  destruct (permanent w !! get data "constraint_hash") as [pe|] eqn:Hp.
  2: { rewrite (blind_sign_no_key _ _ _ Ht Hp). simpl.
       now rewrite (blind_sign_no_key _ _ _ Ht Hp). }
  destruct (verify (get data "proof") (get data "blinded_message")
              (get data "constraint_hash")) eqn:Hv.
  - rewrite (blind_sign_valid _ _ _ _ Hp Ht Hv). simpl.
    now erewrite blind_sign_valid by (simpl; eauto).
  - rewrite (blind_sign_invalid _ _ _ _ Hp Ht Hv). simpl.
    now erewrite blind_sign_invalid by (simpl; eauto).
Qed.

Lemma delete_key_temporary data w :
  temporary (delete_key data w).2 = temporary w.
Proof. run_handler; repeat case_match; simplify_eq/=; auto. Qed.

(** C6: when no key is stored for the hash, create-sign-session answers
    404 "Constraint hash not found" and leaves the state, the session store
    included, as it was; and this stays so after any sequence of requests
    in which generate-keypair is never called for that hash. *)
Theorem create_sign_session_requires_key reqs data w :
  permanent w !! get data "constraint_hash" = None ->
  Forall (fun rq : Route * request_json =>
            rq.1 = GenerateKeypair ->
            get rq.2 "constraint_hash" <> get data "constraint_hash") reqs ->
  create_sign_session data (serve reqs w).2 =
    ({| body := [("error", JString "Constraint hash not found")]; status := 404 |},
     (serve reqs w).2).
Proof.
  intros Hn Hreqs. apply create_sign_session_absent.
  revert w Hn. induction Hreqs as [|[r d] reqs Hr _ IH]; intros w Hn; simpl.
  - exact Hn.
  - unfold mbind, M_bind at 1.
    destruct (dispatch r d w) as [resp w1] eqn:Hstep.
    pose proof (permanent_absent_preserved r d w _ Hn Hr) as Hn1.
    rewrite Hstep in Hn1. simpl in Hn1.
    specialize (IH w1 Hn1).
    unfold mbind, M_bind, mret, M_ret.
    destruct (serve reqs w1) as [resps w2]. exact IH.
Qed.

(** C8: a stored session is removed or altered only by close-sign-session
    for its own hash: every other request leaves it exactly as stored. In
    particular blind-sign leaves both stores unchanged, so signing again
    with the same request gives the same answer, and delete-key leaves the
    session store unchanged while removing the key. *)
Theorem session_changed_only_by_close data w :
  (forall r h te,
     temporary w !! h = Some te ->
     (r = CloseSignSession -> get data "constraint_hash" <> h) ->
     temporary (dispatch r data w).2 !! h = Some te) /\
  (temporary (blind_sign data w).2 = temporary w /\
   permanent (blind_sign data w).2 = permanent w) /\
  (blind_sign data (blind_sign data w).2).1 = (blind_sign data w).1 /\
  (temporary (delete_key data w).2 = temporary w /\
   permanent (delete_key data w).2 !! get data "constraint_hash" = None).
Proof.
  split; [|split; [|split]].
  - intros r h te. apply temporary_present_preserved.
  - destruct (blind_sign_stores data w) as (Hp & Ht & _). auto.
  - apply blind_sign_again.
  - split; [apply delete_key_temporary |].
    destruct (permanent w !! get data "constraint_hash") as [pe|] eqn:Hp.
    + rewrite (delete_key_present _ _ _ Hp). simpl. apply lookup_delete_eq.
    + rewrite (delete_key_absent _ _ Hp). exact Hp.
Qed.

(** ** Secrets stay inside *)

Lemma low_equiv_permanent w1 w2 h :
  low_equiv w1 w2 ->
  (permanent w1 !! h = None /\ permanent w2 !! h = None) \/
  (exists pe1 pe2,
     permanent w1 !! h = Some pe1 /\ permanent w2 !! h = Some pe2 /\
     public_key pe1 = public_key pe2).
Proof.
  intros (Hp & _).
  assert (public_permanent <$> (permanent w1 !! h)
          = public_permanent <$> (permanent w2 !! h)) as Hl
    by (rewrite <- !lookup_fmap; now rewrite Hp).
  destruct (permanent w1 !! h) as [pe1|], (permanent w2 !! h) as [pe2|];
    simpl in Hl; try discriminate; [right | left; auto].
  exists pe1, pe2. repeat split. unfold public_permanent in Hl. congruence.
Qed.

Lemma low_equiv_temporary w1 w2 h :
  low_equiv w1 w2 ->
  (temporary w1 !! h = None /\ temporary w2 !! h = None) \/
  (exists te1 te2,
     temporary w1 !! h = Some te1 /\ temporary w2 !! h = Some te2 /\
     public_value te1 = public_value te2).
Proof.
  intros (_ & Ht & _).
  assert (public_temporary <$> (temporary w1 !! h)
          = public_temporary <$> (temporary w2 !! h)) as Hl
    by (rewrite <- !lookup_fmap; now rewrite Ht).
  destruct (temporary w1 !! h) as [te1|], (temporary w2 !! h) as [te2|];
    simpl in Hl; try discriminate; [right | left; auto].
  exists te1, te2. repeat split. unfold public_temporary in Hl. congruence.
Qed.

Lemma response_fields_only r data w :
  Forall (fun kv : string * json => kv.1 ∈ response_fields) (body (dispatch r data w).1).
Proof.
  destruct r; run_handler; repeat case_match; simplify_eq/=;
    repeat constructor.
Qed.

Lemma generate_keypair_low_equiv data w1 w2 :
  low_equiv w1 w2 ->
  (generate_keypair data w1).1 = (generate_keypair data w2).1 /\
  low_equiv (generate_keypair data w1).2 (generate_keypair data w2).2.
Proof.
  intros Heq.
  destruct (low_equiv_permanent _ _ (get data "constraint_hash") Heq)
    as [[Hp1 Hp2] | (pe1 & pe2 & Hp1 & Hp2 & Hpk)].
  - rewrite (generate_keypair_fresh _ _ Hp1), (generate_keypair_fresh _ _ Hp2).
    destruct Heq as (Hp & Ht & He). rewrite He. split; [reflexivity |].
    unfold low_equiv. simpl. rewrite !fmap_insert, Hp. auto.
  - rewrite (generate_keypair_existing _ _ _ Hp1), (generate_keypair_existing _ _ _ Hp2).
    simpl. now rewrite Hpk.
Qed.

Lemma create_sign_session_low_equiv data w1 w2 :
  low_equiv w1 w2 ->
  (create_sign_session data w1).1 = (create_sign_session data w2).1 /\
  low_equiv (create_sign_session data w1).2 (create_sign_session data w2).2.
Proof.
  intros Heq.
  destruct (low_equiv_permanent _ _ (get data "constraint_hash") Heq)
    as [[Hp1 Hp2] | (pe1 & pe2 & Hp1 & Hp2 & _)].
  { now rewrite (create_sign_session_absent _ _ Hp1), (create_sign_session_absent _ _ Hp2). }
  destruct (low_equiv_temporary _ _ (get data "constraint_hash") Heq)
    as [[Ht1 Ht2] | (te1 & te2 & Ht1 & Ht2 & Hpv)].
  - rewrite (create_sign_session_fresh _ _ _ Hp1 Ht1), (create_sign_session_fresh _ _ _ Hp2 Ht2).
    destruct Heq as (Hp & Ht & He). rewrite He. split; [reflexivity |].
    unfold low_equiv. simpl. rewrite !fmap_insert, Ht. auto.
  - rewrite (create_sign_session_existing _ _ _ _ Hp1 Ht1),
      (create_sign_session_existing _ _ _ _ Hp2 Ht2).
    simpl. now rewrite Hpv.
Qed.

Lemma close_sign_session_low_equiv data w1 w2 :
  low_equiv w1 w2 ->
  (close_sign_session data w1).1 = (close_sign_session data w2).1 /\
  low_equiv (close_sign_session data w1).2 (close_sign_session data w2).2.
Proof.
  intros (Hp & Ht & He). rewrite !close_sign_session_eq. split; [reflexivity |].
  unfold low_equiv. simpl. rewrite !fmap_delete, Ht. auto.
Qed.

Lemma delete_key_low_equiv data w1 w2 :
  low_equiv w1 w2 ->
  (delete_key data w1).1 = (delete_key data w2).1 /\
  low_equiv (delete_key data w1).2 (delete_key data w2).2.
Proof.
  intros Heq.
  destruct (low_equiv_permanent _ _ (get data "constraint_hash") Heq)
    as [[Hp1 Hp2] | (pe1 & pe2 & Hp1 & Hp2 & _)].
  - now rewrite (delete_key_absent _ _ Hp1), (delete_key_absent _ _ Hp2).
  - rewrite (delete_key_present _ _ _ Hp1), (delete_key_present _ _ _ Hp2).
    destruct Heq as (Hp & Ht & He). split; [reflexivity |].
    unfold low_equiv. simpl. rewrite !fmap_delete, Hp. auto.
Qed.

Lemma blind_sign_low_equiv data w1 w2 :
  low_equiv w1 w2 ->
  redact (blind_sign data w1).1 = redact (blind_sign data w2).1 /\
  low_equiv (blind_sign data w1).2 (blind_sign data w2).2.
Proof.
  intros Heq. split.
  - destruct (low_equiv_temporary _ _ (get data "constraint_hash") Heq)
      as [[Ht1 Ht2] | (te1 & te2 & Ht1 & Ht2 & _)].
    { now rewrite (blind_sign_no_session _ _ Ht1), (blind_sign_no_session _ _ Ht2). }
    destruct (low_equiv_permanent _ _ (get data "constraint_hash") Heq)
      as [[Hp1 Hp2] | (pe1 & pe2 & Hp1 & Hp2 & _)].
    { now rewrite (blind_sign_no_key _ _ _ Ht1 Hp1), (blind_sign_no_key _ _ _ Ht2 Hp2). }
    destruct (verify (get data "proof") (get data "blinded_message")
                (get data "constraint_hash")) eqn:Hv.
    + now rewrite (blind_sign_valid _ _ _ _ Hp1 Ht1 Hv), (blind_sign_valid _ _ _ _ Hp2 Ht2 Hv).
    + now rewrite (blind_sign_invalid _ _ _ _ Hp1 Ht1 Hv), (blind_sign_invalid _ _ _ _ Hp2 Ht2 Hv).
  - destruct (blind_sign_stores data w1) as (Hp1 & Ht1 & He1).
    destruct (blind_sign_stores data w2) as (Hp2 & Ht2 & He2).
    unfold low_equiv. rewrite Hp1, Ht1, He1, Hp2, Ht2, He2. exact Heq.
Qed.

Lemma public_permanent_cases (m1 m2 : gmap value PermanentStorage) (h : value) :
  public_permanent <$> m1 = public_permanent <$> m2 ->
  (m1 !! h = None /\ m2 !! h = None) \/
  (exists pe1 pe2, m1 !! h = Some pe1 /\ m2 !! h = Some pe2 /\
                   public_key pe1 = public_key pe2).
Proof.
  intros Hm.
  assert (public_permanent <$> (m1 !! h) = public_permanent <$> (m2 !! h)) as Hl
    by (rewrite <- !lookup_fmap; now rewrite Hm).
  destruct (m1 !! h) as [pe1|], (m2 !! h) as [pe2|];
    simpl in Hl; try discriminate; [right | left; auto].
  exists pe1, pe2. repeat split. unfold public_permanent in Hl. congruence.
Qed.

Lemma public_temporary_cases (m1 m2 : gmap value TemporaryStorage) (h : value) :
  public_temporary <$> m1 = public_temporary <$> m2 ->
  (m1 !! h = None /\ m2 !! h = None) \/
  (exists te1 te2, m1 !! h = Some te1 /\ m2 !! h = Some te2 /\
                   public_value te1 = public_value te2).
Proof.
  intros Hm.
  assert (public_temporary <$> (m1 !! h) = public_temporary <$> (m2 !! h)) as Hl
    by (rewrite <- !lookup_fmap; now rewrite Hm).
  destruct (m1 !! h) as [te1|], (m2 !! h) as [te2|];
    simpl in Hl; try discriminate; [right | left; auto].
  exists te1, te2. repeat split. unfold public_temporary in Hl. congruence.
Qed.

(** Where the one value of a response comes from. *)
Lemma response_provenance r data w :
  (exists pe,
     permanent (dispatch r data w).2 !! get data "constraint_hash" = Some pe /\
     (dispatch r data w).1 = ok [("public_key", JString (public_key pe))]) \/
  (exists te,
     temporary (dispatch r data w).2 !! get data "constraint_hash" = Some te /\
     (dispatch r data w).1 = ok [("public_value", JString (public_value te))]) \/
  (dispatch r data w).1 = ok [("success", JBool true)] \/
  (exists msg,
     msg ∈ error_messages /\ status (dispatch r data w).1 <> 200 /\
     body (dispatch r data w).1 = [("error", JString msg)]) \/
  (exists pe te,
     permanent w !! get data "constraint_hash" = Some pe /\
     temporary w !! get data "constraint_hash" = Some te /\
     (dispatch r data w).1 =
       ok [("blinded_signature",
            JString (sign (private_key pe) (private_value te)
                       (get data "blinded_message")))]).
Proof.
  destruct r; cbn [dispatch].
  - left. destruct (permanent w !! get data "constraint_hash") as [pe|] eqn:Hp.
    + rewrite (generate_keypair_existing _ _ _ Hp). exists pe. auto.
    + rewrite (generate_keypair_fresh _ _ Hp). eexists. simpl.
      split; [apply lookup_insert_eq | reflexivity].
  - destruct (permanent w !! get data "constraint_hash") as [pe|] eqn:Hp.
    2: { rewrite (create_sign_session_absent _ _ Hp). do 3 right. left.
         eexists. simpl. split; [|split; [discriminate | reflexivity]].
         unfold error_messages. set_solver. }
    right. left. destruct (temporary w !! get data "constraint_hash") as [te|] eqn:Ht.
    + rewrite (create_sign_session_existing _ _ _ _ Hp Ht). exists te. auto.
    + rewrite (create_sign_session_fresh _ _ _ Hp Ht). eexists. simpl.
      split; [apply lookup_insert_eq | reflexivity].
  - rewrite close_sign_session_eq. auto.
  - destruct (temporary w !! get data "constraint_hash") as [te|] eqn:Ht.
    2: { rewrite (blind_sign_no_session _ _ Ht). do 3 right. left.
         eexists. simpl. split; [|split; [discriminate | reflexivity]].
         unfold error_messages. set_solver. }
    destruct (permanent w !! get data "constraint_hash") as [pe|] eqn:Hp.
    2: { rewrite (blind_sign_no_key _ _ _ Ht Hp). do 3 right. left.
         eexists. simpl. split; [|split; [discriminate | reflexivity]].
         unfold error_messages. set_solver. }
    destruct (verify (get data "proof") (get data "blinded_message")
                (get data "constraint_hash")) eqn:Hv.
    + rewrite (blind_sign_valid _ _ _ _ Hp Ht Hv). do 4 right. exists pe, te. auto.
    + rewrite (blind_sign_invalid _ _ _ _ Hp Ht Hv). do 3 right. left.
      eexists. simpl. split; [|split; [discriminate | reflexivity]].
      unfold error_messages. set_solver.
  - destruct (permanent w !! get data "constraint_hash") as [pe|] eqn:Hp.
    + rewrite (delete_key_present _ _ _ Hp). auto.
    + rewrite (delete_key_absent _ _ Hp). do 3 right. left.
      eexists. simpl. split; [|split; [discriminate | reflexivity]].
      unfold error_messages. set_solver.
Qed.

End Properties.

(** Running a request on [E] and on the same engine with other secrets. *)
Lemma dispatch_public_equiv `{E : Libblindr} key_secret session_secret signer
    (r : Route) (data : request_json)
    (w1 : World) (w2 : @World (with_secrets key_secret session_secret signer)) :
  public_equiv w1 w2 ->
  redact (dispatch r data w1).1 = redact (dispatch r data w2).1 /\
  (r <> BlindSign -> (dispatch r data w1).1 = (dispatch r data w2).1) /\
  public_equiv (dispatch r data w1).2 (dispatch r data w2).2.
Proof.
  intros (Hp & Ht & He).
  destruct (public_permanent_cases _ _ (get data "constraint_hash") Hp)
    as [[Hp1 Hp2] | (pe1 & pe2 & Hp1 & Hp2 & Hpk)];
    destruct (public_temporary_cases _ _ (get data "constraint_hash") Ht)
      as [[Ht1 Ht2] | (te1 & te2 & Ht1 & Ht2 & Hpv)];
    destruct (verify (get data "proof") (get data "blinded_message")
                (get data "constraint_hash")) eqn:Hv;
    pose proof (Hv : @verify (with_secrets key_secret session_secret signer)
                       (get data "proof") (get data "blinded_message")
                       (get data "constraint_hash") = _) as Hv2;
    destruct r; cbn [dispatch];
    rewrite ?close_sign_session_eq,
      ?(generate_keypair_existing _ _ _ Hp1), ?(generate_keypair_existing _ _ _ Hp2),
      ?(generate_keypair_fresh _ _ Hp1), ?(generate_keypair_fresh _ _ Hp2),
      ?(create_sign_session_absent _ _ Hp1), ?(create_sign_session_absent _ _ Hp2),
      ?(create_sign_session_existing _ _ _ _ Hp1 Ht1),
      ?(create_sign_session_existing _ _ _ _ Hp2 Ht2),
      ?(create_sign_session_fresh _ _ _ Hp1 Ht1), ?(create_sign_session_fresh _ _ _ Hp2 Ht2),
      ?(blind_sign_no_session _ _ Ht1), ?(blind_sign_no_session _ _ Ht2),
      ?(blind_sign_no_key _ _ _ Ht1 Hp1), ?(blind_sign_no_key _ _ _ Ht2 Hp2),
      ?(blind_sign_valid _ _ _ _ Hp1 Ht1 Hv), ?(blind_sign_valid _ _ _ _ Hp2 Ht2 Hv2),
      ?(blind_sign_invalid _ _ _ _ Hp1 Ht1 Hv), ?(blind_sign_invalid _ _ _ _ Hp2 Ht2 Hv2),
      ?(delete_key_absent _ _ Hp1), ?(delete_key_absent _ _ Hp2),
      ?(delete_key_present _ _ _ Hp1), ?(delete_key_present _ _ _ Hp2);
    unfold public_equiv; simpl;
    rewrite ?fmap_insert, ?fmap_delete, ?Hp, ?Ht, <- ?He, ?Hpk, ?Hpv;
    (split; [reflexivity | split; [intros Hne; try reflexivity; now destruct Hne | auto]]).
Qed.

(** C3: no response carries a secret. Every response has fields among
    [public_key], [public_value], [success], [error] and
    [blinded_signature], and its one value is the [public_key] of the key
    stored for the hash, the [public_value] of the session stored for the
    hash, [true], one of the three error messages, or the output of [sign]
    on the stored secrets and the request's message. Two states that hold
    the same public entries and differ in the stored [private_key]s and
    [private_value]s give the same response up to the value of
    [blinded_signature], and so does the same engine with other secrets
    (those already stored and those drawn during the request): no stored
    or freshly generated [private_key] or [private_value] reaches a
    response. *)
Theorem responses_hide_secrets `{E : Libblindr}
    (r : Route) (data : request_json) (w1 w2 : World) :
  low_equiv w1 w2 ->
  Forall (fun kv : string * json => kv.1 ∈ response_fields) (body (dispatch r data w1).1) /\
  redact (dispatch r data w1).1 = redact (dispatch r data w2).1 /\
  (r <> BlindSign -> (dispatch r data w1).1 = (dispatch r data w2).1) /\
  low_equiv (dispatch r data w1).2 (dispatch r data w2).2 /\
  ((exists pe,
      permanent (dispatch r data w1).2 !! get data "constraint_hash" = Some pe /\
      (dispatch r data w1).1 =
        {| body := [("public_key", JString (public_key pe))]; status := 200 |}) \/
   (exists te,
      temporary (dispatch r data w1).2 !! get data "constraint_hash" = Some te /\
      (dispatch r data w1).1 =
        {| body := [("public_value", JString (public_value te))]; status := 200 |}) \/
   (dispatch r data w1).1 = {| body := [("success", JBool true)]; status := 200 |} \/
   (exists msg,
      msg ∈ error_messages /\ status (dispatch r data w1).1 <> 200 /\
      body (dispatch r data w1).1 = [("error", JString msg)]) \/
   (exists pe te,
      permanent w1 !! get data "constraint_hash" = Some pe /\
      temporary w1 !! get data "constraint_hash" = Some te /\
      (dispatch r data w1).1 =
        {| body := [("blinded_signature",
                     JString (sign (private_key pe) (private_value te)
                                (get data "blinded_message")))];
           status := 200 |})) /\
  (forall key_secret session_secret signer
          (w' : @World (with_secrets key_secret session_secret signer)),
     public_equiv w1 w' ->
     redact (dispatch r data w1).1 = redact (dispatch r data w').1 /\
     (r <> BlindSign -> (dispatch r data w1).1 = (dispatch r data w').1) /\
     public_equiv (dispatch r data w1).2 (dispatch r data w').2).
Proof.
  intros Heq. split; [apply response_fields_only |].
  assert (Hsame :
    redact (dispatch r data w1).1 = redact (dispatch r data w2).1 /\
    (r <> BlindSign -> (dispatch r data w1).1 = (dispatch r data w2).1) /\
    low_equiv (dispatch r data w1).2 (dispatch r data w2).2).
  { destruct r; cbn [dispatch].
    - destruct (generate_keypair_low_equiv data _ _ Heq) as [-> ?]. auto.
    - destruct (create_sign_session_low_equiv data _ _ Heq) as [-> ?]. auto.
    - destruct (close_sign_session_low_equiv data _ _ Heq) as [-> ?]. auto.
    - destruct (blind_sign_low_equiv data _ _ Heq) as [Hr Hw].
      split; [exact Hr | split; [intros Hne; now destruct Hne | exact Hw]].
    - destruct (delete_key_low_equiv data _ _ Heq) as [-> ?]. auto. }
  destruct Hsame as (Hr & Hne & Hw).
  split; [exact Hr |]. split; [exact Hne |]. split; [exact Hw |].
  split; [apply response_provenance |].
  intros key_secret session_secret signer w'. apply dispatch_public_equiv.
Qed.

(** * Further properties: traces, isolation and the life cycle *)

Section LifeCycle.

Context `{E : Libblindr}.

Implicit Types (w : World) (data : request_json) (h : value).

(** ** What a request adds to the trace of engine calls *)

Lemma dispatch_trace r data w :
  exists l,
    calls (dispatch r data w).2 = calls w ++ l /\
    (l = [] \/
     (r = GenerateKeypair /\ permanent w !! get data "constraint_hash" = None /\
      l = [CallGenerateKeypair]) \/
     (r = CreateSignSession /\ temporary w !! get data "constraint_hash" = None /\
      l = [CallGenerateSession]) \/
     (r = BlindSign /\
      verify (get data "proof") (get data "blinded_message")
        (get data "constraint_hash") = false /\
      l = [CallVerify (get data "proof") (get data "blinded_message")
             (get data "constraint_hash")]) \/
     (r = BlindSign /\
      verify (get data "proof") (get data "blinded_message")
        (get data "constraint_hash") = true /\
      exists pe te,
        permanent w !! get data "constraint_hash" = Some pe /\
        temporary w !! get data "constraint_hash" = Some te /\
        l = [CallVerify (get data "proof") (get data "blinded_message")
               (get data "constraint_hash");
             CallSign (private_key pe) (private_value te) (get data "blinded_message")])).
Proof.
  destruct r; cbn [dispatch].
  - destruct (permanent w !! get data "constraint_hash") as [pe|] eqn:Hp.
    + rewrite (generate_keypair_existing _ _ _ Hp). exists []. rewrite app_nil_r. auto.
    + rewrite (generate_keypair_fresh _ _ Hp). exists [CallGenerateKeypair]. simpl.
      split; [reflexivity | right; left; auto].
  - destruct (permanent w !! get data "constraint_hash") as [pe|] eqn:Hp.
    2: { rewrite (create_sign_session_absent _ _ Hp). exists []. rewrite app_nil_r. auto. }
    destruct (temporary w !! get data "constraint_hash") as [te|] eqn:Ht.
    + rewrite (create_sign_session_existing _ _ _ _ Hp Ht). exists []. simpl.
      rewrite app_nil_r. auto.
    + rewrite (create_sign_session_fresh _ _ _ Hp Ht). exists [CallGenerateSession].
      simpl. split; [reflexivity | right; right; left; auto].
  - rewrite close_sign_session_eq. exists []. simpl. rewrite app_nil_r. auto.
  - destruct (temporary w !! get data "constraint_hash") as [te|] eqn:Ht.
    2: { rewrite (blind_sign_no_session _ _ Ht). exists []. rewrite app_nil_r. auto. }
    destruct (permanent w !! get data "constraint_hash") as [pe|] eqn:Hp.
    2: { rewrite (blind_sign_no_key _ _ _ Ht Hp). exists []. rewrite app_nil_r. auto. }
    destruct (verify (get data "proof") (get data "blinded_message")
                (get data "constraint_hash")) eqn:Hv.
    + rewrite (blind_sign_valid _ _ _ _ Hp Ht Hv). eexists. simpl.
      rewrite <- app_assoc. split; [reflexivity |]. simpl.
      do 4 right. repeat split. exists pe, te. auto.
    + rewrite (blind_sign_invalid _ _ _ _ Hp Ht Hv). eexists. simpl.
      split; [reflexivity |]. do 3 right. left. auto.
  - destruct (permanent w !! get data "constraint_hash") as [pe|] eqn:Hp.
    + rewrite (delete_key_present _ _ _ Hp). exists []. simpl. rewrite app_nil_r. auto.
    + rewrite (delete_key_absent _ _ Hp). exists []. rewrite app_nil_r. auto.
Qed.

Lemma last_call_cons prev c l :
  last_call prev (c :: l) = last_call (Some c) l.
Proof.
  unfold last_call. rewrite last_cons. now destruct (last l).
Qed.

Lemma signs_verified_from_app prev l1 l2 :
  signs_verified_from prev (l1 ++ l2) =
    signs_verified_from prev l1 && signs_verified_from (last_call prev l1) l2.
Proof.
  revert prev. induction l1 as [|c l1 IH]; intros prev.
  - reflexivity.
  - rewrite last_call_cons. simpl. rewrite IH. apply andb_assoc.
Qed.

Lemma dispatch_signs_verified r data w :
  signs_verified (calls w) = true ->
  signs_verified (calls (dispatch r data w).2) = true.
Proof.
  intros Hw. destruct (dispatch_trace r data w) as (l & -> & Hl).
  unfold signs_verified in *. rewrite signs_verified_from_app, Hw. simpl.
  destruct Hl as [-> | [(_ & _ & ->) | [(_ & _ & ->) | [(_ & _ & ->) | Hs]]]];
    try reflexivity.
  destruct Hs as (_ & Hv & pe & te & _ & _ & ->). simpl.
  rewrite Hv, bool_decide_eq_true_2 by done. reflexivity.
Qed.

(** X1: blind-sign answers 200 exactly when a session and a key are stored
    for the hash and the engine accepts the proof, and it calls [sign]
    exactly in that case: the number of [sign] calls in the trace grows by
    one when the answer is 200 and not at all otherwise. *)
Theorem blind_sign_signs_iff_verified data w :
  (status (blind_sign data w).1 = 200 <->
     is_Some (temporary w !! get data "constraint_hash") /\
     is_Some (permanent w !! get data "constraint_hash") /\
     verify (get data "proof") (get data "blinded_message")
       (get data "constraint_hash") = true) /\
  count_calls is_sign_call (calls (blind_sign data w).2) =
    (count_calls is_sign_call (calls w) +
       (if bool_decide (status (blind_sign data w).1 = 200%Z) then 1 else 0))%nat.
Proof.
  destruct (temporary w !! get data "constraint_hash") as [te|] eqn:Ht.
  2: { rewrite (blind_sign_no_session _ _ Ht). simpl. split; [|lia].
       split; [discriminate |]. intros ([? ?] & _). discriminate. }
  destruct (permanent w !! get data "constraint_hash") as [pe|] eqn:Hp.
  2: { rewrite (blind_sign_no_key _ _ _ Ht Hp). simpl. split; [|lia].
       split; [discriminate |]. intros (_ & [? ?] & _). discriminate. }
  destruct (verify (get data "proof") (get data "blinded_message")
              (get data "constraint_hash")) eqn:Hv.
  - rewrite (blind_sign_valid _ _ _ _ Hp Ht Hv). simpl. split.
    + split; eauto.
    + rewrite !count_calls_snoc. simpl. lia.
  - rewrite (blind_sign_invalid _ _ _ _ Hp Ht Hv). simpl. split.
    + split; [discriminate |]. intros (_ & _ & ?). discriminate.
    + rewrite count_calls_snoc. simpl. lia.
Qed.

(** X2: over any sequence of requests, every call of [sign] in the trace
    comes directly after a verification of the same blinded message that
    the engine accepted, provided the trace started that way (for instance
    empty). *)
Theorem signs_always_follow_verification reqs w :
  signs_verified (calls w) = true ->
  signs_verified (calls (serve reqs w).2) = true.
Proof.
  revert w. induction reqs as [|[r d] reqs IH]; intros w Hw; simpl.
  - exact Hw.
  - unfold mbind, M_bind at 1.
    pose proof (dispatch_signs_verified r d w Hw) as Hstep.
    destruct (dispatch r d w) as [resp w1]. simpl in Hstep.
    specialize (IH w1 Hstep).
    unfold mbind, M_bind, mret, M_ret.
    destruct (serve reqs w1) as [resps w2]. exact IH.
Qed.

(** X3: which handler may call what. A request adds at most two calls to
    the trace; the keypair generator is only called by generate-keypair
    when no key is stored for the hash, the session generator only by
    create-sign-session when no session is stored, [verify] and [sign] only
    by blind-sign; close-sign-session and delete-key never call the
    engine. *)
Theorem engine_calls_by_route r data w :
  exists l,
    calls (dispatch r data w).2 = calls w ++ l /\
    (length l <= 2)%nat /\
    (forall c, c ∈ l ->
       match c with
       | CallGenerateKeypair =>
           r = GenerateKeypair /\ permanent w !! get data "constraint_hash" = None
       | CallGenerateSession =>
           r = CreateSignSession /\ temporary w !! get data "constraint_hash" = None
       | CallVerify _ _ _ | CallSign _ _ _ => r = BlindSign
       end) /\
    (r = CloseSignSession \/ r = DeleteKey -> l = []).
Proof.
  destruct (dispatch_trace r data w) as (l & Hc & Hl). exists l.
  split; [exact Hc |].
  destruct Hl as [-> | [(-> & Hn & ->) | [(-> & Hn & ->) | [(-> & _ & ->) | Hs]]]].
  - repeat split; simpl; auto with lia. intros c Hin. inversion Hin.
  - repeat split; simpl; auto with lia.
    + intros c ->%list_elem_of_singleton. auto.
    + intros [? | ?]; discriminate.
  - repeat split; simpl; auto with lia.
    + intros c ->%list_elem_of_singleton. auto.
    + intros [? | ?]; discriminate.
  - repeat split; simpl; auto with lia.
    + intros c ->%list_elem_of_singleton. auto.
    + intros [? | ?]; discriminate.
  - destruct Hs as (-> & _ & pe & te & _ & _ & ->).
    repeat split; simpl; auto with lia.
    + intros c Hin. apply elem_of_cons in Hin as [-> | ->%list_elem_of_singleton]; auto.
    + intros [? | ?]; discriminate.
Qed.

(** ** Isolation between hashes *)

Lemma serve_cons_state r data reqs w :
  (serve ((r, data) :: reqs) w).2 = (serve reqs (dispatch r data w).2).2.
Proof.
  simpl. unfold mbind, M_bind, mret, M_ret.
  destruct (dispatch r data w) as [resp w1]. simpl.
  now destruct (serve reqs w1).
Qed.

Lemma dispatch_other_hash r data w h :
  h <> get data "constraint_hash" ->
  permanent (dispatch r data w).2 !! h = permanent w !! h /\
  temporary (dispatch r data w).2 !! h = temporary w !! h.
Proof.
  intros Hne. destruct r; run_handler; repeat case_match; simplify_eq/=;
    rewrite ?lookup_insert_ne, ?lookup_delete_ne by congruence; auto.
Qed.

(** X4: requests for other hashes never touch the entries of a hash: after
    any sequence of requests none of which names the hash [h], the key and
    the session stored for [h] are exactly what they were. *)
Theorem other_hashes_untouched reqs w h :
  Forall (fun rq : Route * request_json => get rq.2 "constraint_hash" <> h) reqs ->
  permanent (serve reqs w).2 !! h = permanent w !! h /\
  temporary (serve reqs w).2 !! h = temporary w !! h.
Proof.
  intros Hreqs. revert w. induction Hreqs as [|[r d] reqs Hr _ IH]; intros w.
  - auto.
  - rewrite serve_cons_state.
    destruct (dispatch_other_hash r d w h) as [Hp Ht]; [simpl in Hr; congruence |].
    destruct (IH (dispatch r d w).2) as [IHp IHt].
    now rewrite IHp, IHt.
Qed.

(** X5: the answer to a request depends only on the entries stored for
    the request's own hash and on the engine's randomness: two states that
    agree there give the same response, whatever they hold for other
    hashes, and agree there afterwards as well. *)
Theorem response_depends_on_own_hash r data w1 w2 :
  same_at (get data "constraint_hash") w1 w2 ->
  (dispatch r data w1).1 = (dispatch r data w2).1 /\
  same_at (get data "constraint_hash") (dispatch r data w1).2 (dispatch r data w2).2.
Proof.
  intros (Hp & Ht & He).
  destruct (permanent w1 !! get data "constraint_hash") as [pe|] eqn:Hp1;
    destruct (temporary w1 !! get data "constraint_hash") as [te|] eqn:Ht1;
    symmetry in Hp, Ht;
    destruct (verify (get data "proof") (get data "blinded_message")
                (get data "constraint_hash")) eqn:Hv;
    destruct r; cbn [dispatch];
    rewrite ?close_sign_session_eq,
      ?(generate_keypair_existing _ _ _ Hp1), ?(generate_keypair_existing _ _ _ Hp),
      ?(generate_keypair_fresh _ _ Hp1), ?(generate_keypair_fresh _ _ Hp),
      ?(create_sign_session_absent _ _ Hp1), ?(create_sign_session_absent _ _ Hp),
      ?(create_sign_session_existing _ _ _ _ Hp1 Ht1),
      ?(create_sign_session_existing _ _ _ _ Hp Ht),
      ?(create_sign_session_fresh _ _ _ Hp1 Ht1), ?(create_sign_session_fresh _ _ _ Hp Ht),
      ?(blind_sign_no_session _ _ Ht1), ?(blind_sign_no_session _ _ Ht),
      ?(blind_sign_no_key _ _ _ Ht1 Hp1), ?(blind_sign_no_key _ _ _ Ht Hp),
      ?(blind_sign_valid _ _ _ _ Hp1 Ht1 Hv), ?(blind_sign_valid _ _ _ _ Hp Ht Hv),
      ?(blind_sign_invalid _ _ _ _ Hp1 Ht1 Hv), ?(blind_sign_invalid _ _ _ _ Hp Ht Hv),
      ?(delete_key_absent _ _ Hp1), ?(delete_key_absent _ _ Hp),
      ?(delete_key_present _ _ _ Hp1), ?(delete_key_present _ _ _ Hp);
    unfold same_at; simpl; rewrite ?He, ?Hp1, ?Ht1, ?Hp, ?Ht,
      ?lookup_insert_eq, ?lookup_delete_eq; auto.
Qed.

(** ** Responses *)

(** X6: a request that is answered with an error changes nothing that is
    stored: both stores, the engine's randomness and the output are as
    before (only a verification may have been added to the trace). *)
Theorem errors_change_nothing r data w :
  status (dispatch r data w).1 <> 200 ->
  permanent (dispatch r data w).2 = permanent w /\
  temporary (dispatch r data w).2 = temporary w /\
  entropy (dispatch r data w).2 = entropy w /\
  stdout (dispatch r data w).2 = stdout w.
Proof.
  destruct r; run_handler; repeat case_match; simplify_eq/=; auto;
    intros Hs; now destruct Hs.
Qed.

(** X7: the shape of every response. It has exactly one field; either the
    status is 200 and the field is not [error], or the field is [error]
    with one of the three messages of [app.py], the status is 404 or 400,
    and 400 is only ever the answer of blind-sign to a proof that does not
    verify. *)
Theorem response_shape r data w :
  (status (dispatch r data w).1 = 200 /\
   exists k v, body (dispatch r data w).1 = [(k, v)] /\ k <> "error"%string) \/
  (exists msg,
     body (dispatch r data w).1 = [("error"%string, JString msg)] /\
     msg ∈ error_messages /\
     (status (dispatch r data w).1 = 404 \/
      (status (dispatch r data w).1 = 400 /\ r = BlindSign /\
       msg = "Verification failed"%string /\
       verify (get data "proof") (get data "blinded_message")
         (get data "constraint_hash") = false))).
Proof.
  destruct r; run_handler; repeat case_match; simplify_eq/=;
    first
      [ left; split; [reflexivity |]; do 2 eexists; split; [reflexivity | discriminate]
      | right; eexists; split; [reflexivity |]; split;
        [ unfold error_messages; set_solver
        | first [ left; reflexivity
                | right; repeat split; auto; now apply negb_true_iff ] ] ].
Qed.

(** ** What the stores hold *)

Lemma dispatch_stores_ok r data w :
  stores_ok w -> stores_ok (dispatch r data w).2.
Proof.
  intros [Hp Ht]. destruct r; cbn [dispatch].
  - destruct (permanent w !! get data "constraint_hash") as [pe|] eqn:Hl.
    + now rewrite (generate_keypair_existing _ _ _ Hl).
    + rewrite (generate_keypair_fresh _ _ Hl). split; simpl; [|exact Ht].
      apply map_Forall_insert_2; [|exact Hp].
      split; [reflexivity |]. exists (entropy w). simpl.
      now destruct (gen_keypair (entropy w)) as [[sk pk] r'].
  - destruct (permanent w !! get data "constraint_hash") as [pe|] eqn:Hl.
    2: { now rewrite (create_sign_session_absent _ _ Hl). }
    destruct (temporary w !! get data "constraint_hash") as [te|] eqn:Hl'.
    + now rewrite (create_sign_session_existing _ _ _ _ Hl Hl').
    + rewrite (create_sign_session_fresh _ _ _ Hl Hl'). split; simpl; [exact Hp |].
      apply map_Forall_insert_2; [|exact Ht].
      split; [reflexivity |]. exists (entropy w). simpl.
      now destruct (gen_session (entropy w)) as [[pv pubv] r'].
  - rewrite close_sign_session_eq. split; simpl; [exact Hp |].
    now apply map_Forall_delete.
  - destruct (blind_sign_stores data w) as (Hp' & Ht' & _).
    unfold stores_ok. now rewrite Hp', Ht'.
  - destruct (permanent w !! get data "constraint_hash") as [pe|] eqn:Hl.
    + rewrite (delete_key_present _ _ _ Hl). split; simpl; [|exact Ht].
      now apply map_Forall_delete.
    + now rewrite (delete_key_absent _ _ Hl).
Qed.


(** ** How the operations compose *)

Lemma generate_keypair_post data w :
  exists pe,
    (generate_keypair data w).1 = ok [("public_key", JString (public_key pe))] /\
    permanent (generate_keypair data w).2 !! get data "constraint_hash" = Some pe /\
    temporary (generate_keypair data w).2 = temporary w.
Proof.
  destruct (permanent w !! get data "constraint_hash") as [pe|] eqn:Hp.
  - rewrite (generate_keypair_existing _ _ _ Hp). exists pe. auto.
  - rewrite (generate_keypair_fresh _ _ Hp). eexists. simpl.
    split; [|split; [apply lookup_insert_eq | reflexivity]]. reflexivity.
Qed.

Lemma create_sign_session_post data w pe :
  permanent w !! get data "constraint_hash" = Some pe ->
  exists te,
    (create_sign_session data w).1 = ok [("public_value", JString (public_value te))] /\
    temporary (create_sign_session data w).2 !! get data "constraint_hash" = Some te /\
    permanent (create_sign_session data w).2 = permanent w.
Proof.
  intros Hp. destruct (temporary w !! get data "constraint_hash") as [te|] eqn:Ht.
  - rewrite (create_sign_session_existing _ _ _ _ Hp Ht). exists te. auto.
  - rewrite (create_sign_session_fresh _ _ _ Hp Ht). eexists. simpl.
    split; [|split; [apply lookup_insert_eq | reflexivity]]. reflexivity.
Qed.

(** X9: generate-keypair never fails. In every state it answers 200 with
    a [public_key], and afterwards a key is stored for the hash whose
    public half is the one it announced; the session store is not
    touched. *)
Theorem generate_keypair_always_succeeds data w :
  exists pe,
    (generate_keypair data w).1 =
      {| body := [("public_key", JString (public_key pe))]; status := 200 |} /\
    permanent (generate_keypair data w).2 !! get data "constraint_hash" = Some pe /\
    temporary (generate_keypair data w).2 = temporary w.
Proof. apply generate_keypair_post. Qed.

(** X10: create-sign-session answers 200 exactly when a key is stored for
    the hash; in that case a session is stored for the hash afterwards
    whose public half is the [public_value] it announced, and the key
    store is not touched. *)
Theorem create_sign_session_succeeds_iff_key data w :
  (status (create_sign_session data w).1 = 200 <->
     is_Some (permanent w !! get data "constraint_hash")) /\
  (is_Some (permanent w !! get data "constraint_hash") ->
     exists te,
       (create_sign_session data w).1 =
         {| body := [("public_value", JString (public_value te))]; status := 200 |} /\
       temporary (create_sign_session data w).2 !! get data "constraint_hash" = Some te /\
       permanent (create_sign_session data w).2 = permanent w).
Proof.
  split.
  - destruct (permanent w !! get data "constraint_hash") as [pe|] eqn:Hp.
    + destruct (create_sign_session_post data w pe Hp) as (te & -> & _). simpl.
      split; eauto.
    + rewrite (create_sign_session_absent _ _ Hp). simpl.
      split; [discriminate | intros [? ?]; discriminate].
  - intros [pe Hp]. apply (create_sign_session_post data w pe Hp).
Qed.

(** X11: the whole protocol round. From any state, generate-keypair then
    create-sign-session then blind-sign, all with the same request whose
    proof the engine accepts, ends with a key [pe] and a session [te]
    stored for the hash such that the first answer announced the
    [public_key] of [pe], the second the [public_value] of [te], and the
    third is a 200 whose signature is [sign] applied to the [private_key]
    of [pe], the [private_value] of [te] and the request's message, in
    that order. When the stores held only pairs made by the engine to
    begin with, [pe] and [te] are such pairs: the signature is made with
    the secret halves that the engine generated together with the
    announced public halves. *)
Theorem keypair_session_sign_round data w :
  verify (get data "proof") (get data "blinded_message") (get data "constraint_hash") = true ->
  exists pe te,
    permanent (create_sign_session data (generate_keypair data w).2).2
      !! get data "constraint_hash" = Some pe /\
    temporary (create_sign_session data (generate_keypair data w).2).2
      !! get data "constraint_hash" = Some te /\
    (generate_keypair data w).1 =
      {| body := [("public_key", JString (public_key pe))]; status := 200 |} /\
    (create_sign_session data (generate_keypair data w).2).1 =
      {| body := [("public_value", JString (public_value te))]; status := 200 |} /\
    (blind_sign data (create_sign_session data (generate_keypair data w).2).2).1 =
      {| body := [("blinded_signature",
                   JString (sign (private_key pe) (private_value te)
                              (get data "blinded_message")))];
         status := 200 |} /\
    (stores_ok w ->
     (exists r, (gen_keypair r).1 = (private_key pe, public_key pe)) /\
     (exists r, (gen_session r).1 = (private_value te, public_value te))).
Proof.
  intros Hv.
  destruct (generate_keypair_post data w) as (pe & Hr1 & Hp1 & _).
  destruct (create_sign_session_post data _ pe Hp1) as (te & Hr2 & Ht2 & Hp2).
  exists pe, te. rewrite <- Hp2 in Hp1.
  split; [exact Hp1 |]. split; [exact Ht2 |].
  split; [exact Hr1 |]. split; [exact Hr2 |].
  split; [now rewrite (blind_sign_valid _ _ _ _ Hp1 Ht2 Hv) |].
  intros Hok.
  pose proof (dispatch_stores_ok CreateSignSession data _
                (dispatch_stores_ok GenerateKeypair data w Hok)) as [Hpok Htok].
  cbn [dispatch] in Hpok, Htok.
  destruct (map_Forall_lookup_1 _ _ _ _ Hpok Hp1) as [_ Hpair].
  destruct (map_Forall_lookup_1 _ _ _ _ Htok Ht2) as [_ Hspair].
  split; [exact Hpair | exact Hspair].
Qed.

(** X12: a session outlives its key. When a key and a session are stored
    for a hash, delete-key leaves the session stored; blind-sign and
    create-sign-session then answer 404 "Constraint hash not found"; and
    once generate-keypair has issued a new key for the hash, blind-sign
    with an accepted proof signs with the new [private_key] and the old
    session's [private_value]. *)
Theorem session_survives_key_rotation data w pe te :
  permanent w !! get data "constraint_hash" = Some pe ->
  temporary w !! get data "constraint_hash" = Some te ->
  let w1 := (delete_key data w).2 in
  let w2 := (generate_keypair data w1).2 in
  temporary w1 !! get data "constraint_hash" = Some te /\
  (blind_sign data w1).1 =
    {| body := [("error", JString "Constraint hash not found")]; status := 404 |} /\
  (create_sign_session data w1).1 =
    {| body := [("error", JString "Constraint hash not found")]; status := 404 |} /\
  (generate_keypair data w1).1 =
    {| body := [("public_key", JString (gen_keypair (entropy w)).1.2)]; status := 200 |} /\
  (verify (get data "proof") (get data "blinded_message") (get data "constraint_hash") = true ->
   (blind_sign data w2).1 =
     {| body := [("blinded_signature",
                  JString (sign (gen_keypair (entropy w)).1.1 (private_value te)
                             (get data "blinded_message")))];
        status := 200 |}).
Proof.
  intros Hp Ht w1 w2. subst w2 w1.
  rewrite (delete_key_present _ _ _ Hp). simpl.
  set (w1 := set_permanent (delete (get data "constraint_hash")) w).
  assert (Hp1 : permanent w1 !! get data "constraint_hash" = None)
    by apply lookup_delete_eq.
  assert (Ht1 : temporary w1 !! get data "constraint_hash" = Some te) by exact Ht.
  split; [exact Ht1 |].
  split; [now rewrite (blind_sign_no_key _ _ _ Ht1 Hp1) |].
  split; [now rewrite (create_sign_session_absent _ _ Hp1) |].
  rewrite (generate_keypair_fresh _ _ Hp1). simpl.
  split; [reflexivity |]. intros Hv.
  rewrite (blind_sign_valid data _
             (mkPermanent (get data "constraint_hash")
                (gen_keypair (entropy w)).1.1 (gen_keypair (entropy w)).1.2) te);
    [reflexivity | apply lookup_insert_eq | exact Ht | exact Hv].
Qed.

(** X13: closing ends the session and reopening makes a new one. After
    close-sign-session, blind-sign for the same hash answers 404 "Session
    not found" in every state; and when a key is stored, the next
    create-sign-session draws a new session from the engine, whatever
    session was stored before the close. *)
Theorem close_then_reopen data w :
  (blind_sign data (close_sign_session data w).2).1 =
    {| body := [("error", JString "Session not found")]; status := 404 |} /\
  (is_Some (permanent w !! get data "constraint_hash") ->
   create_sign_session data (close_sign_session data w).2 =
     ({| body := [("public_value", JString (gen_session (entropy w)).1.2)]; status := 200 |},
      set_temporary
        (insert (get data "constraint_hash")
           (mkTemporary (get data "constraint_hash")
              (gen_session (entropy w)).1.1 (gen_session (entropy w)).1.2))
        (log_call CallGenerateSession
           (set_entropy (gen_session (entropy w)).2 (close_sign_session data w).2)))).
Proof.
  rewrite !close_sign_session_eq. simpl.
  set (w1 := set_temporary (delete (get data "constraint_hash")) w).
  assert (Ht1 : temporary w1 !! get data "constraint_hash" = None)
    by apply lookup_delete_eq.
  split; [now rewrite (blind_sign_no_session _ _ Ht1) |].
  intros [pe Hp].
  assert (Hp1 : permanent w1 !! get data "constraint_hash" = Some pe) by exact Hp.
  now rewrite (create_sign_session_fresh _ _ _ Hp1 Ht1).
Qed.

(** X14: delete-key is not idempotent, and deleting makes room for a new
    key. In every state a second delete-key for the same hash answers 404
    "Constraint hash not found", and a generate-keypair that follows a
    delete-key always draws a new pair from the engine and announces its
    public half. *)
Theorem delete_then_regenerate data w :
  (delete_key data (delete_key data w).2).1 =
    {| body := [("error", JString "Constraint hash not found")]; status := 404 |} /\
  (generate_keypair data (delete_key data w).2).1 =
    {| body := [("public_key", JString (gen_keypair (entropy w)).1.2)]; status := 200 |} /\
  count_calls is_keypair_call (calls (generate_keypair data (delete_key data w).2).2) =
    (count_calls is_keypair_call (calls w) + 1)%nat.
Proof.
  assert (Hgone : permanent (delete_key data w).2 !! get data "constraint_hash" = None
                  /\ entropy (delete_key data w).2 = entropy w
                  /\ calls (delete_key data w).2 = calls w).
  { destruct (permanent w !! get data "constraint_hash") as [pe|] eqn:Hp.
    - rewrite (delete_key_present _ _ _ Hp). simpl. split; [apply lookup_delete_eq | auto].
    - rewrite (delete_key_absent _ _ Hp). auto. }
  destruct Hgone as (Hp1 & He1 & Hc1).
  rewrite (delete_key_absent _ _ Hp1), (generate_keypair_fresh _ _ Hp1). simpl.
  rewrite He1, Hc1, count_calls_snoc. auto.
Qed.

(** X15: nothing but the fixed debug line is ever printed. Over any
    sequence of requests the output grows only by copies of "found session
    alr exists": no key, session value, message or proof is written to
    it. *)
Theorem only_the_debug_line_is_printed reqs w :
  exists n,
    stdout (serve reqs w).2 = stdout w ++ replicate n "found session alr exists"%string.
Proof.
  revert w. induction reqs as [|[r d] reqs IH]; intros w.
  - exists 0%nat. simpl. now rewrite app_nil_r.
  - rewrite serve_cons_state. destruct (IH (dispatch r d w).2) as [n ->].
    assert (Hstep : stdout (dispatch r d w).2 = stdout w \/
                    stdout (dispatch r d w).2 = stdout w ++ ["found session alr exists"%string]).
    { destruct r; run_handler; repeat case_match; simplify_eq/=; auto. }
    destruct Hstep as [-> | ->].
    + now exists n.
    + exists (S n). now rewrite <- app_assoc.
Qed.

End LifeCycle.

(** * The properties on the concrete engine and states *)

Lemma blind_sign_success_witness :
  permanent demo_key_session !! get (demo_request "valid") "constraint_hash"
    = Some (mkPermanent (Some "abc") "a-secret-key" "a-public-key") /\
  temporary demo_key_session !! get (demo_request "valid") "constraint_hash"
    = Some (mkTemporary (Some "abc") "b-secret-session" "b-public-session") /\
  (blind_sign (demo_request "valid") demo_key_session).1 =
    {| body := [("blinded_signature", JString "a-secret-key|b-secret-session|blinded")];
       status := 200 |}.
Proof.
  split; [vm_compute; reflexivity |].
  split; [vm_compute; reflexivity |].
  apply (blind_sign_success (E:=demo_engine) (demo_request "valid") demo_key_session
           (mkPermanent (Some "abc") "a-secret-key" "a-public-key")
           (mkTemporary (Some "abc") "b-secret-session" "b-public-session"));
    vm_compute; reflexivity.
Defined.

Lemma blind_sign_error_precedence_witness :
  blind_sign (demo_request "valid") demo_key_only =
    ({| body := [("error", JString "Session not found")]; status := 404 |}, demo_key_only) /\
  blind_sign (demo_request "forged") demo_session_only =
    ({| body := [("error", JString "Constraint hash not found")]; status := 404 |},
     demo_session_only) /\
  (blind_sign (demo_request "forged") demo_key_session).1 =
    {| body := [("error", JString "Verification failed")]; status := 400 |}.
Proof.
  split; [|split].
  - apply (proj1 (blind_sign_error_precedence (E:=demo_engine)
                    (demo_request "valid") demo_key_only)).
    vm_compute; reflexivity.
  - apply (proj1 (proj2 (blind_sign_error_precedence (E:=demo_engine)
                           (demo_request "forged") demo_session_only))).
    + eexists; vm_compute; reflexivity.
    + vm_compute; reflexivity.
  - apply (proj2 (proj2 (blind_sign_error_precedence (E:=demo_engine)
                           (demo_request "forged") demo_key_session))).
    + eexists; vm_compute; reflexivity.
    + eexists; vm_compute; reflexivity.
    + vm_compute; reflexivity.
Defined.

Lemma responses_hide_secrets_witness :
  low_equiv demo_key_session demo_key_session' /\
  private_key <$> permanent demo_key_session !! Some "abc" = Some "a-secret-key" /\
  private_key <$> permanent demo_key_session' !! Some "abc" = Some "another-key" /\
  redact (dispatch BlindSign (demo_request "valid") demo_key_session).1 =
    redact (dispatch BlindSign (demo_request "valid") demo_key_session').1 /\
  (dispatch CreateSignSession (demo_request "valid") demo_key_session).1 =
    (dispatch CreateSignSession (demo_request "valid") demo_key_session').1 /\
  private_key <$> permanent (dispatch GenerateKeypair (demo_request "valid") demo_empty).2
    !! Some "abc" = Some "a-secret-key" /\
  private_key <$> permanent (dispatch GenerateKeypair (demo_request "valid") demo_empty').2
    !! Some "abc" = Some "hidden-key" /\
  (dispatch GenerateKeypair (demo_request "valid") demo_empty).1 =
    (dispatch GenerateKeypair (demo_request "valid") demo_empty').1.
Proof.
  assert (Heq : low_equiv demo_key_session demo_key_session')
    by (repeat split; vm_compute; reflexivity).
  split; [exact Heq |].
  split; [vm_compute; reflexivity |].
  split; [vm_compute; reflexivity |].
  split.
  { destruct (responses_hide_secrets (E:=demo_engine) BlindSign (demo_request "valid")
                demo_key_session demo_key_session' Heq) as (_ & Hr & _).
    exact Hr. }
  split.
  { destruct (responses_hide_secrets (E:=demo_engine) CreateSignSession
                (demo_request "valid") demo_key_session demo_key_session' Heq)
      as (_ & _ & Hne & _).
    apply Hne. discriminate. }
  split; [vm_compute; reflexivity |].
  split; [vm_compute; reflexivity |].
  assert (Heq0 : low_equiv demo_empty demo_empty)
    by (repeat split; vm_compute; reflexivity).
  destruct (responses_hide_secrets (E:=demo_engine) GenerateKeypair (demo_request "valid")
              demo_empty demo_empty Heq0) as (_ & _ & _ & _ & _ & Hother).
  destruct (Hother (fun _ => "hidden-key") (fun _ => "hidden-nonce")
              (fun _ _ _ => "hidden-signature") demo_empty') as (_ & Hne & _).
  - repeat split; vm_compute; reflexivity.
  - apply Hne. discriminate.
Defined.

Lemma generate_keypair_idempotent_witness :
  generate_keypair (demo_request "valid") demo_key_only =
    ({| body := [("public_key", JString "a-public-key")]; status := 200 |}, demo_key_only) /\
  (generate_keypair (demo_request "valid")
     (generate_keypair (demo_request "valid") demo_empty).2).1 =
    (generate_keypair (demo_request "valid") demo_empty).1.
Proof.
  split.
  - apply (proj1 (generate_keypair_idempotent (E:=demo_engine)
                    (demo_request "valid") demo_key_only)
             (mkPermanent (Some "abc") "a-secret-key" "a-public-key")).
    vm_compute; reflexivity.
  - apply (generate_keypair_idempotent (E:=demo_engine) (demo_request "valid") demo_empty).
Defined.

Lemma create_sign_session_idempotent_witness :
  permanent demo_key_only !! get (demo_request "valid") "constraint_hash"
    = Some (mkPermanent (Some "abc") "a-secret-key" "a-public-key") /\
  (create_sign_session (demo_request "valid")
     (create_sign_session (demo_request "valid") demo_key_only).2).1 =
    (create_sign_session (demo_request "valid") demo_key_only).1 /\
  (create_sign_session (demo_request "valid") demo_key_only).1 =
    {| body := [("public_value", JString "b-public-session")]; status := 200 |}.
Proof.
  assert (Hp : permanent demo_key_only !! get (demo_request "valid") "constraint_hash"
               = Some (mkPermanent (Some "abc") "a-secret-key" "a-public-key"))
    by (vm_compute; reflexivity).
  split; [exact Hp |]. split.
  - apply (create_sign_session_idempotent (E:=demo_engine) (demo_request "valid")
             demo_key_only _ Hp).
  - vm_compute; reflexivity.
Defined.

Lemma create_sign_session_requires_key_witness :
  permanent demo_empty !! get (demo_request "valid") "constraint_hash" = None /\
  (create_sign_session (demo_request "valid")
     (serve [(GenerateKeypair, other_request); (CreateSignSession, other_request);
             (CloseSignSession, demo_request "valid")] demo_empty).2).1 =
    {| body := [("error", JString "Constraint hash not found")]; status := 404 |}.
Proof.
  assert (Hn : permanent demo_empty !! get (demo_request "valid") "constraint_hash" = None)
    by (vm_compute; reflexivity).
  split; [exact Hn |].
  rewrite (create_sign_session_requires_key (E:=demo_engine)
             [(GenerateKeypair, other_request); (CreateSignSession, other_request);
              (CloseSignSession, demo_request "valid")]
             (demo_request "valid") demo_empty Hn).
  - reflexivity.
  - repeat apply Forall_cons_2; try apply Forall_nil_2; simpl; intros Hr;
      first [ discriminate Hr | vm_compute; discriminate ].
Defined.

Lemma blind_sign_verification_failed_witness :
  verify (Libblindr:=demo_engine) (get (demo_request "forged") "proof")
    (get (demo_request "forged") "blinded_message")
    (get (demo_request "forged") "constraint_hash") = false /\
  (blind_sign (demo_request "forged") demo_key_session).1 =
    {| body := [("error", JString "Verification failed")]; status := 400 |} /\
  count_calls is_sign_call (calls (blind_sign (demo_request "forged") demo_key_session).2) =
    count_calls is_sign_call (calls demo_key_session).
Proof.
  split; [vm_compute; reflexivity |].
  destruct (blind_sign_verification_failed (E:=demo_engine) (demo_request "forged")
              demo_key_session
              (mkPermanent (Some "abc") "a-secret-key" "a-public-key")
              (mkTemporary (Some "abc") "b-secret-session" "b-public-session"))
    as (Hr & _ & Hc & _); try (vm_compute; reflexivity).
  split; [exact Hr | exact Hc].
Defined.

Lemma session_changed_only_by_close_witness :
  temporary (dispatch DeleteKey (demo_request "valid") demo_key_session).2 !! Some "abc" =
    Some (mkTemporary (Some "abc") "b-secret-session" "b-public-session") /\
  temporary (dispatch BlindSign (demo_request "valid") demo_key_session).2 !! Some "abc" =
    Some (mkTemporary (Some "abc") "b-secret-session" "b-public-session") /\
  temporary (dispatch CloseSignSession other_request demo_key_session).2 !! Some "abc" =
    Some (mkTemporary (Some "abc") "b-secret-session" "b-public-session").
Proof.
  assert (Ht : temporary demo_key_session !! Some "abc" =
               Some (mkTemporary (Some "abc") "b-secret-session" "b-public-session"))
    by (vm_compute; reflexivity).
  split; [|split].
  - apply (proj1 (session_changed_only_by_close (E:=demo_engine)
                    (demo_request "valid") demo_key_session) DeleteKey _ _ Ht).
    discriminate.
  - apply (proj1 (session_changed_only_by_close (E:=demo_engine)
                    (demo_request "valid") demo_key_session) BlindSign _ _ Ht).
    discriminate.
  - apply (proj1 (session_changed_only_by_close (E:=demo_engine)
                    other_request demo_key_session) CloseSignSession _ _ Ht).
    intros _. vm_compute. discriminate.
Defined.

Lemma delete_key_outcomes_witness :
  delete_key (demo_request "valid") demo_empty =
    ({| body := [("error", JString "Constraint hash not found")]; status := 404 |},
     demo_empty) /\
  (delete_key (demo_request "valid") demo_key_session).1 =
    {| body := [("success", JBool true)]; status := 200 |} /\
  permanent (delete_key (demo_request "valid") demo_key_session).2
    !! get (demo_request "valid") "constraint_hash" = None.
Proof.
  split.
  - apply (proj1 (delete_key_outcomes (E:=demo_engine) (demo_request "valid") demo_empty)).
    vm_compute; reflexivity.
  - destruct (proj2 (delete_key_outcomes (E:=demo_engine)
                       (demo_request "valid") demo_key_session))
      as (Hr & Hgone & _).
    + eexists; vm_compute; reflexivity.
    + split; [exact Hr | exact Hgone].
Defined.

Lemma close_sign_session_always_succeeds_witness :
  temporary demo_key_only !! get (demo_request "valid") "constraint_hash" = None /\
  close_sign_session (demo_request "valid") demo_key_only =
    ({| body := [("success", JBool true)]; status := 200 |}, demo_key_only) /\
  (close_sign_session (demo_request "valid") demo_key_session).1 =
    {| body := [("success", JBool true)]; status := 200 |}.
Proof.
  assert (Hn : temporary demo_key_only !! get (demo_request "valid") "constraint_hash" = None)
    by (vm_compute; reflexivity).
  split; [exact Hn |]. split.
  - destruct (close_sign_session_always_succeeds (E:=demo_engine)
                (demo_request "valid") demo_key_only) as (_ & _ & _ & _ & Hnone & _).
    exact (Hnone Hn).
  - apply (close_sign_session_always_succeeds (E:=demo_engine)
             (demo_request "valid") demo_key_session).
Defined.

(** ** The further properties on the concrete engine and states *)

Lemma blind_sign_signs_iff_verified_witness :
  status (blind_sign (demo_request "valid") demo_key_session).1 = 200 /\
  count_calls is_sign_call (calls (blind_sign (demo_request "valid") demo_key_session).2) =
    1%nat.
Proof.
  destruct (blind_sign_signs_iff_verified (E:=demo_engine)
              (demo_request "valid") demo_key_session) as [Hiff Hcount].
  assert (Hs : status (blind_sign (demo_request "valid") demo_key_session).1 = 200).
  { apply Hiff. split; [eexists; vm_compute; reflexivity |].
    split; [eexists; vm_compute; reflexivity | vm_compute; reflexivity]. }
  split; [exact Hs |].
  rewrite Hcount. vm_compute. reflexivity.
Defined.

Lemma signs_always_follow_verification_witness :
  signs_verified (E:=demo_engine) (calls demo_empty) = true /\
  signs_verified (E:=demo_engine)
    (calls (serve [(GenerateKeypair, demo_request "valid");
                   (CreateSignSession, demo_request "valid");
                   (BlindSign, demo_request "forged");
                   (BlindSign, demo_request "valid")] demo_empty).2) = true.
Proof.
  assert (H0 : signs_verified (E:=demo_engine) (calls demo_empty) = true) by (vm_compute; reflexivity).
  split; [exact H0 |].
  apply (signs_always_follow_verification (E:=demo_engine) _ demo_empty H0).
Defined.

Lemma engine_calls_by_route_witness :
  calls (dispatch DeleteKey (demo_request "valid") demo_key_session).2 =
    calls demo_key_session.
Proof.
  destruct (engine_calls_by_route (E:=demo_engine) DeleteKey (demo_request "valid")
              demo_key_session) as (l & Hc & _ & _ & Hnil).
  rewrite Hc, (Hnil (or_intror eq_refl)). apply app_nil_r.
Defined.

Lemma other_hashes_untouched_witness :
  permanent (serve [(GenerateKeypair, other_request); (CreateSignSession, other_request);
                    (DeleteKey, other_request)] demo_key_session).2 !! Some "abc" =
    permanent demo_key_session !! Some "abc" /\
  temporary (serve [(GenerateKeypair, other_request); (CreateSignSession, other_request);
                    (DeleteKey, other_request)] demo_key_session).2 !! Some "abc" =
    temporary demo_key_session !! Some "abc".
Proof.
  apply (other_hashes_untouched (E:=demo_engine)).
  repeat apply Forall_cons_2; try apply Forall_nil_2; vm_compute; discriminate.
Defined.

Lemma response_depends_on_own_hash_witness :
  same_at (get (demo_request "valid") "constraint_hash") demo_key_session
    (set_permanent (insert (Some "xyz") (mkPermanent (Some "xyz") "k" "p")) demo_key_session) /\
  (dispatch BlindSign (demo_request "valid") demo_key_session).1 =
    (dispatch BlindSign (demo_request "valid")
       (set_permanent (insert (Some "xyz") (mkPermanent (Some "xyz") "k" "p"))
          demo_key_session)).1.
Proof.
  assert (Hs : same_at (get (demo_request "valid") "constraint_hash") demo_key_session
                 (set_permanent (insert (Some "xyz") (mkPermanent (Some "xyz") "k" "p"))
                    demo_key_session))
    by (repeat split; vm_compute; reflexivity).
  split; [exact Hs |].
  apply (response_depends_on_own_hash (E:=demo_engine) BlindSign _ _ _ Hs).
Defined.

Lemma errors_change_nothing_witness :
  status (dispatch BlindSign (demo_request "forged") demo_key_session).1 <> 200 /\
  permanent (dispatch BlindSign (demo_request "forged") demo_key_session).2 =
    permanent demo_key_session /\
  temporary (dispatch BlindSign (demo_request "forged") demo_key_session).2 =
    temporary demo_key_session.
Proof.
  assert (Hs : status (dispatch BlindSign (demo_request "forged") demo_key_session).1 <> 200)
    by (vm_compute; discriminate).
  split; [exact Hs |].
  destruct (errors_change_nothing (E:=demo_engine) BlindSign (demo_request "forged")
              demo_key_session Hs) as (Hp & Ht & _).
  split; [exact Hp | exact Ht].
Defined.

Lemma response_shape_witness :
  exists msg,
    body (dispatch BlindSign (demo_request "forged") demo_key_session).1 =
      [("error"%string, JString msg)] /\
    msg ∈ error_messages.
Proof.
  destruct (response_shape (E:=demo_engine) BlindSign (demo_request "forged")
              demo_key_session) as [[Hs _] | (msg & Hb & Hm & _)].
  - vm_compute in Hs. discriminate Hs.
  - exists msg. split; [exact Hb | exact Hm].
Defined.


Lemma generate_keypair_always_succeeds_witness :
  exists pe,
    (generate_keypair (demo_request "valid") demo_empty).1 =
      {| body := [("public_key", JString (public_key pe))]; status := 200 |} /\
    permanent (generate_keypair (demo_request "valid") demo_empty).2
      !! get (demo_request "valid") "constraint_hash" = Some pe /\
    temporary (generate_keypair (demo_request "valid") demo_empty).2 = temporary demo_empty.
Proof.
  exact (generate_keypair_always_succeeds (E:=demo_engine) (demo_request "valid") demo_empty).
Defined.

Lemma create_sign_session_succeeds_iff_key_witness :
  status (create_sign_session (demo_request "valid") demo_key_only).1 = 200 /\
  status (create_sign_session (demo_request "valid") demo_empty).1 <> 200.
Proof.
  split.
  - apply (proj1 (create_sign_session_succeeds_iff_key (E:=demo_engine)
                    (demo_request "valid") demo_key_only)).
    eexists; vm_compute; reflexivity.
  - intros Hs.
    apply (proj1 (create_sign_session_succeeds_iff_key (E:=demo_engine)
                    (demo_request "valid") demo_empty)) in Hs.
    destruct Hs as [pe Hpe]. vm_compute in Hpe. discriminate Hpe.
Defined.

Lemma keypair_session_sign_round_witness :
  verify (Libblindr:=demo_engine) (get (demo_request "valid") "proof")
    (get (demo_request "valid") "blinded_message")
    (get (demo_request "valid") "constraint_hash") = true /\
  (blind_sign (demo_request "valid")
     (create_sign_session (demo_request "valid")
        (generate_keypair (demo_request "valid") demo_empty).2).2).1 =
    {| body := [("blinded_signature", JString "a-secret-key|b-secret-session|blinded")];
       status := 200 |} /\
  exists pe te,
    permanent (create_sign_session (demo_request "valid")
                 (generate_keypair (demo_request "valid") demo_empty).2).2
      !! get (demo_request "valid") "constraint_hash" = Some pe /\
    temporary (create_sign_session (demo_request "valid")
                 (generate_keypair (demo_request "valid") demo_empty).2).2
      !! get (demo_request "valid") "constraint_hash" = Some te /\
    (blind_sign (demo_request "valid")
       (create_sign_session (demo_request "valid")
          (generate_keypair (demo_request "valid") demo_empty).2).2).1 =
      {| body := [("blinded_signature",
                   JString (sign (Libblindr:=demo_engine) (private_key pe) (private_value te)
                              (get (demo_request "valid") "blinded_message")))];
         status := 200 |} /\
    (exists r, (gen_keypair (Libblindr:=demo_engine) r).1 = (private_key pe, public_key pe)) /\
    (exists r, (gen_session (Libblindr:=demo_engine) r).1 =
                 (private_value te, public_value te)).
Proof.
  assert (Hv : verify (Libblindr:=demo_engine) (get (demo_request "valid") "proof")
                 (get (demo_request "valid") "blinded_message")
                 (get (demo_request "valid") "constraint_hash") = true)
    by (vm_compute; reflexivity).
  split; [exact Hv |].
  split; [vm_compute; reflexivity |].
  destruct (keypair_session_sign_round (E:=demo_engine) (demo_request "valid") demo_empty Hv)
    as (pe & te & Hp & Ht & _ & _ & Hr & Hpairs).
  exists pe, te.
  split; [exact Hp |]. split; [exact Ht |]. split; [exact Hr |].
  apply Hpairs. split; apply map_Forall_empty.
Defined.

Lemma session_survives_key_rotation_witness :
  temporary (delete_key (demo_request "valid") demo_key_session).2
    !! get (demo_request "valid") "constraint_hash" =
    Some (mkTemporary (Some "abc") "b-secret-session" "b-public-session") /\
  (blind_sign (demo_request "valid")
     (generate_keypair (demo_request "valid")
        (delete_key (demo_request "valid") demo_key_session).2).2).1 =
    {| body := [("blinded_signature", JString "c-secret-key|b-secret-session|blinded")];
       status := 200 |}.
Proof.
  destruct (session_survives_key_rotation (E:=demo_engine) (demo_request "valid")
              demo_key_session
              (mkPermanent (Some "abc") "a-secret-key" "a-public-key")
              (mkTemporary (Some "abc") "b-secret-session" "b-public-session"))
    as (Ht & _ & _ & _ & Hsign); try (vm_compute; reflexivity).
  split; [exact Ht |].
  apply Hsign. vm_compute; reflexivity.
Defined.

Lemma close_then_reopen_witness :
  (blind_sign (demo_request "valid")
     (close_sign_session (demo_request "valid") demo_key_session).2).1 =
    {| body := [("error", JString "Session not found")]; status := 404 |} /\
  (create_sign_session (demo_request "valid")
     (close_sign_session (demo_request "valid") demo_key_session).2).1 =
    {| body := [("public_value", JString "c-public-session")]; status := 200 |}.
Proof.
  destruct (close_then_reopen (E:=demo_engine) (demo_request "valid") demo_key_session)
    as [Hsign Hopen].
  split; [exact Hsign |].
  rewrite Hopen; [reflexivity |]. eexists; vm_compute; reflexivity.
Defined.

Lemma delete_then_regenerate_witness :
  (delete_key (demo_request "valid")
     (delete_key (demo_request "valid") demo_key_session).2).1 =
    {| body := [("error", JString "Constraint hash not found")]; status := 404 |} /\
  (generate_keypair (demo_request "valid")
     (delete_key (demo_request "valid") demo_key_session).2).1 =
    {| body := [("public_key", JString "c-public-key")]; status := 200 |}.
Proof.
  destruct (delete_then_regenerate (E:=demo_engine) (demo_request "valid") demo_key_session)
    as (Hdel & Hgen & _).
  split; [exact Hdel | exact Hgen].
Defined.

Lemma only_the_debug_line_is_printed_witness :
  exists n,
    stdout (serve [(GenerateKeypair, demo_request "valid");
                   (CreateSignSession, demo_request "valid");
                   (CreateSignSession, demo_request "valid")] demo_empty).2 =
      stdout demo_empty ++ replicate n "found session alr exists"%string.
Proof.
  exact (only_the_debug_line_is_printed (E:=demo_engine) _ demo_empty).
Defined.
